(** * intel_streamer: the fading feed of [main.go], embedded and verified

    The program polls Hacker News for story identifiers, asks a local model
    (through the [ollama] command) to rate each new story, and keeps the
    formatted results in a bounded, newest-first list that is rendered with
    a colour fade.  This file embeds [main.go] function by function:

    - Go [int] is a 64-bit two's-complement integer, written as [Z] with the
      wrap-around of every arithmetic operation spelled out;
    - Go [string] is a byte sequence, written as [string];
    - a slice is a [list]; [map[int]bool] is a [gmap Z bool] read with the
      zero value [false] for absent keys;
    - a run-time panic (division by zero, index out of range) is an
      explicit outcome, [Panic];
    - the outside world (HTTP, the subprocess) is a state [W] threaded
      through every call that touches it. *)

From Stdlib Require Import ZArith Strings.String Strings.Ascii Numbers.DecimalString.
From Stdlib Require Import Numbers.DecimalPos Numbers.DecimalZ.
From stdpp Require Import base option list gmap strings.

Local Open Scope Z_scope.

(** ** Go primitives *)

Module Go.

(** [int] on a 64-bit platform. *)
Definition intSize : Z := 64.
Definition minInt : Z := - 2 ^ (intSize - 1).
Definition maxInt : Z := 2 ^ (intSize - 1) - 1.

(** Two's-complement wrap-around of an arithmetic result. *)
Definition wrap (z : Z) : Z :=
  (z + 2 ^ (intSize - 1)) `mod` 2 ^ intSize - 2 ^ (intSize - 1).

(** Outcome of code that may panic. *)
Inductive result (A : Type) : Type :=
| Ok (a : A)
| Panic (msg : string).
Arguments Ok {A} a.
Arguments Panic {A} msg.

Definition bind {A B} (r : result A) (k : A → result B) : result B :=
  match r with
  | Ok a => k a
  | Panic msg => Panic msg
  end.

Definition mul (a b : Z) : Z := wrap (a * b).
Definition sub (a b : Z) : Z := wrap (a - b).
Definition add (a b : Z) : Z := wrap (a + b).

(** Integer division truncates toward zero and panics on a zero divisor. *)
Definition div (a b : Z) : result Z :=
  if b =? 0 then Panic "runtime error: integer divide by zero"
  else Ok (wrap (a ÷ b)).

(** [len(s)] of a slice. *)
Definition len {A} (s : list A) : Z := Z.of_nat (length s).

(** [s[i]]: panics outside [0 <= i < len(s)]. *)
Definition index {A} (s : list A) (i : Z) : result A :=
  if (0 <=? i) && (i <? len s) then
    match s !! Z.to_nat i with
    | Some a => Ok a
    | None => Panic "runtime error: index out of range"
    end
  else Panic "runtime error: index out of range".

(** A [[]string] stores one 16-byte header per element in a 64-bit address
    space, which bounds the length any such slice can have. *)
Definition stringHeaderSize : Z := 16.
Definition fits_in_memory {A} (s : list A) : Prop :=
  stringHeaderSize * len s < 2 ^ intSize.

(** [strings.Join(elems, sep)]. *)
Fixpoint Join (elems : list string) (sep : string) : string :=
  match elems with
  | [] => ""
  | [e] => e
  | e :: rest => e +:+ sep +:+ Join rest sep
  end.

(** [strings.Split(s, sep)] for a one-byte separator: the pieces of [s]
    between the occurrences of [sep]; always at least one piece. *)
Fixpoint Split (s : string) (sep : ascii) : list string :=
  match s with
  | EmptyString => [""]
  | String c s' =>
      if Ascii.eqb c sep then "" :: Split s' sep
      else match Split s' sep with
           | piece :: pieces => String c piece :: pieces
           | [] => [String c ""]
           end
  end.

(** [s[lo:]]: panics outside [0 <= lo <= len(s)]. *)
Definition sliceFrom {A} (s : list A) (lo : Z) : result (list A) :=
  if (0 <=? lo) && (lo <=? len s) then Ok (drop (Z.to_nat lo) s)
  else Panic "runtime error: slice bounds out of range".

(** A non-nil [error], identified with the text of its [Error()]. *)
Definition error : Type := string.

(** What a library call that returns [(value, err)] hands back: the value
    when [err == nil], the error otherwise.  [main.go] never reads the
    value of a library call that failed. *)
Inductive io (A : Type) : Type :=
| Got (a : A)
| Err (err : error).
Arguments Got {A} a.
Arguments Err {A} err.

(** The line feed of the string literal ["\n"]. *)
Definition LF : ascii := "010"%char.

(** [strings.IndexByte(s, c) >= 0]: the byte [c] occurs in [s]. *)
Fixpoint ContainsByte (s : string) (c : ascii) : bool :=
  match s with
  | EmptyString => false
  | String c' s' => Ascii.eqb c' c || ContainsByte s' c
  end.

(** The [%d] verb of [fmt.Sprintf]. *)
Definition itoa (n : Z) : string := NilZero.string_of_int (Z.to_int n).

End Go.

#[global] Instance result_ret : MRet Go.result := @Go.Ok.
#[global] Instance result_bind : MBind Go.result := λ A B k r, Go.bind r k.

(** ** main.go *)

Record Story := { Story_Title : string; Story_URL : string }.

Record HighValueInsight := {
  Title : string;
  URL : string;
  Summary : string;
  Priority : string
}.

Definition maxEntries : Z := 20.
Definition numStoriesFetch : Z := 1.

Definition fadeLevels : list string :=
  [ "[white]"; "[lightgray]"; "[gray]"; "[darkgray]"; "[black]" ].

(** [addEntry]: put [message] on top, keep the first [maxEntries]. *)
Definition addEntry (entries : list string) (message : string) : list string :=
  let entries := [message] ++ entries in
  if Go.len entries >? maxEntries then take (Z.to_nat maxEntries) entries
  else entries.

(** The expression [i * (len(fadeLevels) - 1) / len(entries)] of
    [formatEntriesWithFade], with [n] for [len(entries)]. *)
Definition fadeIndex (i n : Z) : Go.result Z :=
  Go.div (Go.mul i (Go.sub (Go.len fadeLevels) 1)) n.

(** [formatEntriesWithFade]: the loop over [entries], at index [i] with
    [formattedEntries] built so far; [n] is [len(entries)] of the whole slice. *)
Fixpoint formatLoop (n : Z) (i : Z) (rest : list string)
    (formattedEntries : list string) : Go.result (list string) :=
  match rest with
  | [] => Go.Ok formattedEntries
  | entry :: rest' =>
      fadeIndex ← fadeIndex i n;
      color ← Go.index fadeLevels fadeIndex;
      formatLoop n (Go.add i 1) rest'
        (formattedEntries ++ [color +:+ entry +:+ "[-]"])
  end.

Definition formatEntriesWithFade (entries : list string) : Go.result string :=
  formattedEntries ← formatLoop (Go.len entries) 0 entries [];
  Go.Ok (Go.Join formattedEntries (String Go.LF (String Go.LF ""))).

(** What the specification says of [render]: the fade bucket
    [floor(i * (K-1) / n)] with [K] the number of fade levels, and the
    segment [color + entry_text + reset] of the entry at position [i]. *)
Definition fadeBucket (i n : Z) : Z := (i * (Go.len fadeLevels - 1)) `div` n.

Definition segment (n : Z) (i : nat) (entry : string) : string :=
  default "" (fadeLevels !! Z.to_nat (fadeBucket (Z.of_nat i) n))
  +:+ entry +:+ "[-]".

Definition render (entries : list string) : string :=
  Go.Join (imap (segment (Go.len entries)) entries)
    (String Go.LF (String Go.LF "")).

(** *** The functions that talk to the outside world

    [W] is the state of the world; every library call that performs I/O
    takes the world and returns the new one. *)

Record Host (W Response : Type) := {
  (** [http.Get(url)]; a response with a status other than 2xx is a
      response, not an error *)
  http_Get : string → W → Go.io Response * W;
  (** [ioutil.ReadAll(resp.Body)] *)
  ioutil_ReadAll : Response → W → Go.io string * W;
  (** [resp.Body.Close()] *)
  Body_Close : Response → W → W;
  (** [json.Unmarshal(body, &storyIDs)] with [storyIDs []int] *)
  json_Unmarshal_ints : string → Go.io (list Z);
  (** [json.Unmarshal(body, &story)] with [story Story] *)
  json_Unmarshal_Story : string → Go.io Story;
  (** [exec.Command(name, args...)] with [Stdout] captured, then [Run()]:
      the captured output and the error of [Run] *)
  exec_Run : string → list string → W → (string * option Go.error) * W;
  (** [time.Sleep(d)], [d] in nanoseconds *)
  time_Sleep : Z → W → W
}.
Arguments http_Get {W Response} _ _ _.
Arguments ioutil_ReadAll {W Response} _ _ _.
Arguments Body_Close {W Response} _ _ _.
Arguments json_Unmarshal_ints {W Response} _ _.
Arguments json_Unmarshal_Story {W Response} _ _.
Arguments exec_Run {W Response} _ _ _ _.
Arguments time_Sleep {W Response} _ _ _.

(** The zero values [Story{}] and [HighValueInsight{}]. *)
Definition Story_zero : Story := {| Story_Title := ""; Story_URL := "" |}.
Definition HighValueInsight_zero : HighValueInsight :=
  {| Title := ""; URL := ""; Summary := ""; Priority := "" |}.

Definition topstoriesURL : string :=
  "https://hacker-news.firebaseio.com/v0/topstories.json".

Definition itemURL (id : Z) : string :=
  "https://hacker-news.firebaseio.com/v0/item/" +:+ Go.itoa id +:+ ".json".

Definition prompt (story : Story) : string :=
  "You are an expert cybersecurity analyst. Analyze the following headline and URL to determine its relevance and priority in cybersecurity. Respond with a priority level (e.g., High, Medium, Low) and provide a summary if relevant. Keep everything very short."
  +:+ String Go.LF (String Go.LF "Title: ") +:+ Story_Title story
  +:+ String Go.LF "URL: " +:+ Story_URL story.

Definition invalidFormat : string := "[red]Invalid response format from Ollama[-]".
Definition analysisNotAvailable : string := "[red]Analysis not available[-]".

(** The [message] that [main] formats from an insight. *)
Definition formatInsight (insight : HighValueInsight) : string :=
  "[yellow]Priority: " +:+ Priority insight +:+ "[-]" +:+ String Go.LF
  "[green]" +:+ Title insight +:+ "[-]" +:+ String Go.LF
  "" +:+ URL insight +:+ String Go.LF "" +:+ Summary insight.

(** The [message] that [main] formats from an error of [fetchTopStories]. *)
Definition formatError (err : Go.error) : string :=
  "[red]Error: " +:+ err +:+ "[-]".

(** [seenStoryIDs[id]]: a missing key reads as [false]. *)
Definition seenLookup (seenStoryIDs : gmap Z bool) (id : Z) : bool :=
  default false (seenStoryIDs !! id).

(** The variables of [main] that the polling goroutine owns, and the text
    it last gave to [feedView]. *)
Record State := {
  entries : list string;
  seenStoryIDs : gmap Z bool;
  feedViewText : string
}.

Definition State_init : State :=
  {| entries := []; seenStoryIDs := ∅; feedViewText := "" |}.

(** The pause between two polls, [5 * time.Second] in nanoseconds. *)
Definition pollInterval : Z := 5 * 1000000000.

Section Program.
Context {W Response : Type} (host : Host W Response).

(** The part of [analyzeWithOllama] after the command has run without
    error: parsing [output]. *)
Definition parseOutput (story : Story) (output : string)
    : Go.result (HighValueInsight * option Go.error) :=
  let lines := Go.Split output Go.LF in
  if Go.len lines <? 2 then
    Go.Ok ({| Title := Story_Title story;
              URL := Story_URL story;
              Summary := invalidFormat;
              Priority := "Low" |}, None)
  else
    priority ← Go.index lines 0;
    rest ← Go.sliceFrom lines 1;
    let summary := Go.Join rest " " in
    Go.Ok ({| Title := Story_Title story;
              URL := Story_URL story;
              Summary := summary;
              Priority := priority |}, None).

Definition analyzeWithOllama (story : Story) (w : W)
    : Go.result (HighValueInsight * option Go.error) * W :=
  let '((out, err), w) :=
    exec_Run host "ollama" ["run"; "llama3.2"; prompt story] w in
  match err with
  | Some err =>
      (Go.Ok (HighValueInsight_zero,
              Some ("failed to execute Ollama command: " +:+ err)), w)
  | None => (parseOutput story out, w)
  end.

Definition fetchStoryDetails (id : Z) (w : W) : (Story * option Go.error) * W :=
  let url := itemURL id in
  match http_Get host url w with
  | (Go.Err err, w) => ((Story_zero, Some err), w)
  | (Go.Got resp, w) =>
      match ioutil_ReadAll host resp w with
      | (Go.Err err, w) => ((Story_zero, Some err), Body_Close host resp w)
      | (Go.Got body, w) =>
          match json_Unmarshal_Story host body with
          | Go.Err err => ((Story_zero, Some err), Body_Close host resp w)
          | Go.Got story => ((story, None), Body_Close host resp w)
          end
      end
  end.

(** The loop of [fetchTopStories] over the remaining [storyIDs]. *)
Fixpoint fetchLoop (storyIDs : list Z) (stories : list Story)
    (seenStoryIDs : gmap Z bool) (w : W) : (list Story * gmap Z bool) * W :=
  match storyIDs with
  | [] => ((stories, seenStoryIDs), w)
  | id :: storyIDs' =>
      let '((stories, seenStoryIDs), w) :=
        if negb (seenLookup seenStoryIDs id) then
          match fetchStoryDetails id w with
          | ((story, None), w) =>
              ((stories ++ [story], <[id := true]> seenStoryIDs), w)
          | ((_, Some _), w) => ((stories, seenStoryIDs), w)
          end
        else ((stories, seenStoryIDs), w) in
      if Go.len stories >=? numStoriesFetch then ((stories, seenStoryIDs), w)
      else fetchLoop storyIDs' stories seenStoryIDs w
  end.

(** [fetchTopStories]: the stories and error it returns, and the map it
    was given, as the call leaves it. *)
Definition fetchTopStories (seenStoryIDs : gmap Z bool) (w : W)
    : ((list Story * option Go.error) * gmap Z bool) * W :=
  match http_Get host topstoriesURL w with
  | (Go.Err err, w) => ((([], Some err), seenStoryIDs), w)
  | (Go.Got resp, w) =>
      match ioutil_ReadAll host resp w with
      | (Go.Err err, w) =>
          ((([], Some err), seenStoryIDs), Body_Close host resp w)
      | (Go.Got body, w) =>
          match json_Unmarshal_ints host body with
          | Go.Err err =>
              ((([], Some err), seenStoryIDs), Body_Close host resp w)
          | Go.Got storyIDs =>
              let '((stories, seenStoryIDs), w) :=
                fetchLoop storyIDs [] seenStoryIDs w in
              (((stories, None), seenStoryIDs), Body_Close host resp w)
          end
      end
  end.

(** The loop of [main] over the [stories] of one poll. *)
Fixpoint storiesLoop (stories : list Story) (entries : list string) (w : W)
    : Go.result (list string) * W :=
  match stories with
  | [] => (Go.Ok entries, w)
  | story :: stories' =>
      match analyzeWithOllama story w with
      | (Go.Panic msg, w) => (Go.Panic msg, w)
      | (Go.Ok (insight, err), w) =>
          let insight :=
            match err with
            | Some _ =>
                {| Title := Title insight; URL := URL insight;
                   Summary := analysisNotAvailable;
                   Priority := Priority insight |}
            | None => insight
            end in
          let message := formatInsight insight in
          storiesLoop stories' (addEntry entries message) w
      end
  end.

(** One turn of the [for] loop of the polling goroutine. *)
Definition pollOnce (st : State) (w : W) : Go.result State * W :=
  let '(((stories, err), seen), w) := fetchTopStories (seenStoryIDs st) w in
  let '(r, w) :=
    match err with
    | Some err => (Go.Ok (addEntry (entries st) (formatError err)), w)
    | None => storiesLoop stories (entries st) w
    end in
  match r with
  | Go.Panic msg => (Go.Panic msg, w)
  | Go.Ok entries' =>
      match formatEntriesWithFade entries' with
      | Go.Panic msg => (Go.Panic msg, w)
      | Go.Ok text =>
          (Go.Ok {| entries := entries'; seenStoryIDs := seen;
                    feedViewText := text |},
           time_Sleep host pollInterval w)
      end
  end.

(** The first [n] turns of the loop; a panic ends the program. *)
Fixpoint poll (n : nat) (st : State) (w : W) : Go.result State * W :=
  match n with
  | O => (Go.Ok st, w)
  | S n' =>
      match pollOnce st w with
      | (Go.Panic msg, w) => (Go.Panic msg, w)
      | (Go.Ok st, w) => poll n' st w
      end
  end.

End Program.

(** ** What the specification speaks of

    Names for the entries, failures and identifiers that the properties of
    the poll loop are stated with. *)

(** The entry that [main] inserts for a story whose analysis failed. *)
Definition placeholderInsight : HighValueInsight :=
  {| Title := ""; URL := ""; Summary := analysisNotAvailable; Priority := "" |}.

(** The ways the fetch of the list of story identifiers fails: the request,
    the reading of the body, or the decoding of the body. *)
Inductive listFetchFails {W Response : Type} (host : Host W Response)
    (w : W) (err : Go.error) : W → Prop :=
| request_fails (w1 : W) :
    http_Get host topstoriesURL w = (Go.Err err, w1) →
    listFetchFails host w err w1
| read_fails (resp : Response) (w1 w2 : W) :
    http_Get host topstoriesURL w = (Go.Got resp, w1) →
    ioutil_ReadAll host resp w1 = (Go.Err err, w2) →
    listFetchFails host w err (Body_Close host resp w2)
| decode_fails (resp : Response) (body : string) (w1 w2 : W) :
    http_Get host topstoriesURL w = (Go.Got resp, w1) →
    ioutil_ReadAll host resp w1 = (Go.Got body, w2) →
    json_Unmarshal_ints host body = Go.Err err →
    listFetchFails host w err (Body_Close host resp w2).

(** The same three ways for the fetch of the details of story [id]. *)
Inductive storyFetchFails {W Response : Type} (host : Host W Response)
    (id : Z) (w : W) (err : Go.error) : W → Prop :=
| story_request_fails (w1 : W) :
    http_Get host (itemURL id) w = (Go.Err err, w1) →
    storyFetchFails host id w err w1
| story_read_fails (resp : Response) (w1 w2 : W) :
    http_Get host (itemURL id) w = (Go.Got resp, w1) →
    ioutil_ReadAll host resp w1 = (Go.Err err, w2) →
    storyFetchFails host id w err (Body_Close host resp w2)
| story_decode_fails (resp : Response) (body : string) (w1 w2 : W) :
    http_Get host (itemURL id) w = (Go.Got resp, w1) →
    ioutil_ReadAll host resp w1 = (Go.Got body, w2) →
    json_Unmarshal_Story host body = Go.Err err →
    storyFetchFails host id w err (Body_Close host resp w2).

(** [fetchLoop] with each fetched story tagged by its identifier: the same
    loop, remembering which identifier each appended story came from. *)
Fixpoint fetchLoopTagged {W Response : Type} (host : Host W Response)
    (storyIDs : list Z) (fetched : list (Z * Story))
    (seenStoryIDs : gmap Z bool) (w : W)
    : (list (Z * Story) * gmap Z bool) * W :=
  match storyIDs with
  | [] => ((fetched, seenStoryIDs), w)
  | id :: storyIDs' =>
      let '((fetched, seenStoryIDs), w) :=
        if negb (seenLookup seenStoryIDs id) then
          match fetchStoryDetails host id w with
          | ((story, None), w) =>
              ((fetched ++ [(id, story)], <[id := true]> seenStoryIDs), w)
          | ((_, Some _), w) => ((fetched, seenStoryIDs), w)
          end
        else ((fetched, seenStoryIDs), w) in
      if Go.len fetched >=? numStoriesFetch then ((fetched, seenStoryIDs), w)
      else fetchLoopTagged host storyIDs' fetched seenStoryIDs w
  end.

(** The identifiers of the stories that a call of [fetchTopStories]
    returns, in the order of the stories. *)
Definition fetchedIDs {W Response : Type} (host : Host W Response)
    (seenStoryIDs : gmap Z bool) (w : W) : list Z :=
  match http_Get host topstoriesURL w with
  | (Go.Err _, _) => []
  | (Go.Got resp, w) =>
      match ioutil_ReadAll host resp w with
      | (Go.Err _, _) => []
      | (Go.Got body, w) =>
          match json_Unmarshal_ints host body with
          | Go.Err _ => []
          | Go.Got storyIDs =>
              (fetchLoopTagged host storyIDs [] seenStoryIDs w).1.1.*1
          end
      end
  end.

(** The identifiers of the stories returned over the first [n] turns of the
    loop. *)
Fixpoint pollIDs {W Response : Type} (host : Host W Response)
    (n : nat) (st : State) (w : W) : list Z :=
  match n with
  | O => []
  | S n' =>
      fetchedIDs host (seenStoryIDs st) w
      ++ match pollOnce host st w with
         | (Go.Ok st', w') => pollIDs host n' st' w'
         | (Go.Panic _, _) => []
         end
  end.

(** What a story returned for an identifier is: the identifier was in the
    list, was not seen, and its details were fetched without error. *)
Definition fetchedFor {W Response : Type} (host : Host W Response)
    (storyIDs : list Z) (seen : gmap Z bool) (id : Z) (story : Story) : Prop :=
  id ∈ storyIDs ∧ seenLookup seen id = false ∧
  ∃ w1 w2 : W, fetchStoryDetails host id w1 = ((story, None), w2).

(** ** A scripted world *)

Module Demo.

(** The world is the list of replies the network will give and the list of
    results the command will have, in order. *)
Record World := {
  replies : list (Go.io string);
  runs : list (string * option Go.error)
}.

Definition decode_ints (body : string) : Go.io (list Z) :=
  if String.eqb body "[101,102]" then Go.Got [101; 102]
  else if String.eqb body "[101]" then Go.Got [101]
  else Go.Err "invalid character looking for beginning of value".

Definition decode_Story (body : string) : Go.io Story :=
  if String.eqb body "{title:A,url:u1}"
  then Go.Got {| Story_Title := "A"; Story_URL := "u1" |}
  else Go.Err "unexpected end of JSON input".

Definition host : Host World string := {|
  http_Get _ w :=
    match replies w with
    | reply :: rest => (reply, {| replies := rest; runs := runs w |})
    | [] => (Go.Err "dial tcp: connection refused", w)
    end;
  ioutil_ReadAll resp w := (Go.Got resp, w);
  Body_Close _ w := w;
  json_Unmarshal_ints := decode_ints;
  json_Unmarshal_Story := decode_Story;
  exec_Run _ _ w :=
    match runs w with
    | run :: rest => (run, {| replies := replies w; runs := rest |})
    | [] => (("", Some "exec: executable file not found in $PATH"), w)
    end;
  time_Sleep _ w := w
|}.

Definition storyA : Story := {| Story_Title := "A"; Story_URL := "u1" |}.

(** Twenty-two messages, ["m1"] the first inserted. *)
Definition messages22 : list string :=
  [ "m1"; "m2"; "m3"; "m4"; "m5"; "m6"; "m7"; "m8"; "m9"; "m10"; "m11";
    "m12"; "m13"; "m14"; "m15"; "m16"; "m17"; "m18"; "m19"; "m20"; "m21";
    "m22" ].

(** The list of identifiers arrives, story 101 arrives, the model answers
    in two lines. *)
Definition worldUrgent : World :=
  {| replies := [Go.Got "[101,102]"; Go.Got "{title:A,url:u1}"];
     runs := [("High" +:+ String Go.LF "Looks urgent", None)] |}.

(** The model answers in one line. *)
Definition worldOneLine : World :=
  {| replies := []; runs := [("High", None)] |}.

(** The command exits with a failure. *)
Definition worldNoModel : World :=
  {| replies := []; runs := [("", Some "exit status 1")] |}.

(** The list of identifiers arrives, the details of 101 do not. *)
Definition worldLostStory : World :=
  {| replies := [Go.Got "[101]"; Go.Err "net/http: request canceled"];
     runs := [] |}.

(** The list of identifiers does not decode. *)
Definition worldBadList : World :=
  {| replies := [Go.Got "<html>"]; runs := [] |}.

End Demo.

(** ** The earlier revisions

    [main.go] keeps, after the current program, the revision before it, and
    [main.go.bak] the first one.  Both write to the text view line by line
    with [appendMessage] and fetch the first ten stories of the list.
    [fetchStoryDetails] is the same in the three revisions. *)

(** The two methods of [tview.TextView] that [appendMessage] calls, on a
    view in state [V]. *)
Record TextView (V : Type) := {
  (** [view.GetText(stripAllTags)] *)
  GetText : bool → V → string;
  (** [view.SetText(text)] *)
  SetText : string → V → V
}.
Arguments GetText {V} _ _ _.
Arguments SetText {V} _ _ _.

(** A view that gives back the text it was last given. *)
Definition textCell : TextView string :=
  {| GetText _ text := text; SetText text _ := text |}.

Module Earlier.

(** [appendMessage] of [main.go] (the revision before the current one). *)
Definition appendMessage {V : Type} (view : TextView V) (v : V)
    (message : string) : Go.result V :=
  let currentText := GetText view false v in
  let lines := Go.Split currentText Go.LF in
  lines ← (if Go.len lines >=? 20 then Go.sliceFrom lines 1 else Go.Ok lines);
  let lines := lines ++ [message] in
  Go.Ok (SetText view (Go.Join lines (String Go.LF "")) v).

(** The loop [for i := 0; i < 10 && i < len(storyIDs); i++] of
    [fetchTopStories], from index [i]; [None] when [fuel] turns do not
    reach the end of the loop. *)
Fixpoint fetchLoop {W Response : Type} (host : Host W Response) (fuel : nat)
    (i : Z) (storyIDs : list Z) (stories : list Story) (w : W)
    : option (Go.result (list Story) * W) :=
  if (i <? 10) && (i <? Go.len storyIDs) then
    match fuel with
    | O => None
    | S fuel' =>
        match Go.index storyIDs i with
        | Go.Panic msg => Some (Go.Panic msg, w)
        | Go.Ok id =>
            let '((story, err), w) := fetchStoryDetails host id w in
            let stories :=
              match err with
              | None => stories ++ [story]
              | Some _ => stories
              end in
            fetchLoop host fuel' (Go.add i 1) storyIDs stories w
        end
    end
  else Some (Go.Ok stories, w).

(** [fetchTopStories] of the two earlier revisions. *)
Definition fetchTopStories {W Response : Type} (host : Host W Response)
    (fuel : nat) (w : W)
    : option (Go.result (list Story * option Go.error) * W) :=
  match http_Get host topstoriesURL w with
  | (Go.Err err, w) => Some (Go.Ok ([], Some err), w)
  | (Go.Got resp, w) =>
      match ioutil_ReadAll host resp w with
      | (Go.Err err, w) => Some (Go.Ok ([], Some err), Body_Close host resp w)
      | (Go.Got body, w) =>
          match json_Unmarshal_ints host body with
          | Go.Err err => Some (Go.Ok ([], Some err), Body_Close host resp w)
          | Go.Got storyIDs =>
              match fetchLoop host fuel 0 storyIDs [] w with
              | None => None
              | Some (Go.Panic msg, w) =>
                  Some (Go.Panic msg, Body_Close host resp w)
              | Some (Go.Ok stories, w) =>
                  Some (Go.Ok (stories, None), Body_Close host resp w)
              end
          end
      end
  end.

End Earlier.

Module Bak.

(** [appendMessage] of [main.go.bak]. *)
Definition appendMessage {V : Type} (view : TextView V) (v : V)
    (message : string) : Go.result V :=
  let currentText := GetText view false v in
  let lines := Go.Split currentText Go.LF in
  lines ← (if Go.len lines >=? 10 then Go.sliceFrom lines 1 else Go.Ok lines);
  let lines := lines ++ [message] in
  Go.Ok (SetText view (Go.Join lines (String Go.LF "")) v).

(** The [message] that [main] of [main.go.bak] formats from a story. *)
Definition formatStory (story : Story) : string :=
  "[green]" +:+ Story_Title story +:+ "[-] - " +:+ Story_URL story.

End Bak.

(** ** Words for the properties of the text and of the fetches *)

(** The number of occurrences of the byte [c] in [s]. *)
Fixpoint countByte (s : string) (c : ascii) : nat :=
  match s with
  | EmptyString => O
  | String c' s' => (if Ascii.eqb c' c then 1 else 0) + countByte s' c
  end.

(** The number of lines of a text: one more than its line feeds. *)
Definition lineCount (text : string) : Z := 1 + Z.of_nat (countByte text Go.LF).

(** The text after the first line feed (empty when there is none). *)
Fixpoint afterFirstLine (text : string) : string :=
  match text with
  | EmptyString => ""
  | String c text' => if Ascii.eqb c Go.LF then text' else afterFirstLine text'
  end.

(** Fetching the details of each identifier in turn and keeping the
    stories of the fetches that succeed. *)
Fixpoint fetchEach {W Response : Type} (host : Host W Response)
    (storyIDs : list Z) (stories : list Story) (w : W) : list Story * W :=
  match storyIDs with
  | [] => (stories, w)
  | id :: storyIDs' =>
      let '((story, err), w) := fetchStoryDetails host id w in
      fetchEach host storyIDs'
        (match err with None => stories ++ [story] | Some _ => stories end) w
  end.

(** The identifiers that the loop of [fetchTopStories] passes over without
    a story, from one state of the world to another: those that are seen,
    which it does not request, and those whose request fails. *)
Inductive passesOver {W Response : Type} (host : Host W Response)
    (seen : gmap Z bool) : list Z → W → W → Prop :=
| passes_none (w : W) : passesOver host seen [] w w
| passes_seen (id : Z) (ids : list Z) (w w' : W) :
    seenLookup seen id = true →
    passesOver host seen ids w w' →
    passesOver host seen (id :: ids) w w'
| passes_failed (id : Z) (ids : list Z) (story : Story) (err : Go.error)
    (w w1 w' : W) :
    seenLookup seen id = false →
    fetchStoryDetails host id w = ((story, Some err), w1) →
    passesOver host seen ids w1 w' →
    passesOver host seen (id :: ids) w w'.

(** ** Facts about the Go primitives *)

Lemma wrap_small (z : Z) : Go.minInt ≤ z ≤ Go.maxInt → Go.wrap z = z.
Proof.
  unfold Go.minInt, Go.maxInt, Go.wrap, Go.intSize. intros Hz.
  rewrite Z.mod_small; lia.
Qed.

Lemma len_nonneg {A} (s : list A) : 0 ≤ Go.len s.
Proof. unfold Go.len. lia. Qed.

Lemma len_app {A} (s t : list A) : Go.len (s ++ t) = Go.len s + Go.len t.
Proof. unfold Go.len. rewrite length_app. lia. Qed.

Lemma len_cons {A} (a : A) (s : list A) : Go.len (a :: s) = 1 + Go.len s.
Proof. unfold Go.len. simpl. lia. Qed.

Lemma index_lookup {A} (s : list A) (i : nat) (a : A) :
  s !! i = Some a → Go.index s (Z.of_nat i) = Go.Ok a.
Proof.
  intros Hi. unfold Go.index, Go.len.
  pose proof (lookup_lt_Some _ _ _ Hi) as Hlt.
  replace (0 <=? Z.of_nat i) with true by (symmetry; apply Z.leb_le; lia).
  replace (Z.of_nat i <? Z.of_nat (length s)) with true
    by (symmetry; apply Z.ltb_lt; lia).
  simpl. rewrite Nat2Z.id, Hi. reflexivity.
Qed.

(** ** The feed buffer: [addEntry] *)

Lemma addEntry_take (entries : list string) (message : string) :
  addEntry entries message = take (Z.to_nat maxEntries) (message :: entries).
Proof.
  unfold addEntry. simpl app.
  destruct (Go.len (message :: entries) >? maxEntries) eqn:Hgt; [reflexivity|].
  rewrite take_ge; [reflexivity|].
  unfold Go.len in Hgt. rewrite Z.gtb_ltb in Hgt.
  apply Z.ltb_ge in Hgt. lia.
Qed.

Lemma addEntry_len (entries : list string) (message : string) :
  Go.len (addEntry entries message) ≤ maxEntries.
Proof.
  rewrite addEntry_take. unfold Go.len, maxEntries.
  rewrite length_take. lia.
Qed.

Lemma addEntry_fits (entries : list string) (message : string) :
  Go.fits_in_memory (addEntry entries message).
Proof.
  pose proof (addEntry_len entries message) as Hlen.
  unfold Go.fits_in_memory, Go.stringHeaderSize, Go.intSize, maxEntries in *.
  lia.
Qed.

(** Inserting into a buffer that was cut to capacity is the same as
    inserting into the uncut one. *)
Lemma addEntry_take_inner (acc : list string) (message : string) :
  addEntry (take (Z.to_nat maxEntries) acc) message = addEntry acc message.
Proof.
  rewrite !addEntry_take.
  change (Z.to_nat maxEntries) with (S 19). simpl.
  rewrite take_take. f_equal.
Qed.

Lemma foldl_addEntry_take (msgs acc : list string) :
  foldl addEntry (take (Z.to_nat maxEntries) acc) msgs
  = take (Z.to_nat maxEntries) (reverse msgs ++ acc).
Proof.
  revert acc. induction msgs as [|m msgs IH]; intros acc; simpl.
  - reflexivity.
  - rewrite addEntry_take_inner, addEntry_take, IH.
    rewrite reverse_cons, <- app_assoc. reflexivity.
Qed.

Lemma foldl_addEntry_nil (msgs : list string) :
  foldl addEntry [] msgs = take (Z.to_nat maxEntries) (reverse msgs).
Proof.
  pose proof (foldl_addEntry_take msgs []) as H.
  rewrite app_nil_r in H. exact H.
Qed.

(** C1. Starting from the empty buffer, after any sequence [msgs] of
    insertions with [addEntry] (and after every prefix of it) the buffer has
    at most [maxEntries] = 20 entries; it is the first 20 of the messages
    read newest-first; once more than 20 were inserted it holds exactly the
    last 20 inserted, newest first; and an insertion into a full buffer
    drops its last (oldest) entry and nothing else. *)
Theorem addEntry_bounded_newest_first (msgs : list string) :
  let buffer := foldl addEntry [] in
  (∀ k : nat, Go.len (buffer (take k msgs)) ≤ maxEntries) ∧
  buffer msgs = take (Z.to_nat maxEntries) (reverse msgs) ∧
  (Go.len msgs > maxEntries →
     Go.len (buffer msgs) = maxEntries ∧
     buffer msgs
     = reverse (drop (length msgs - Z.to_nat maxEntries) msgs)) ∧
  (∀ (kept : list string) (oldest message : string),
     buffer msgs = kept ++ [oldest] → Go.len (buffer msgs) = maxEntries →
     addEntry (buffer msgs) message = message :: kept).
Proof.
  cbv zeta. repeat split.
  - intros k. rewrite foldl_addEntry_nil. unfold Go.len, maxEntries.
    rewrite length_take. lia.
  - apply foldl_addEntry_nil.
  - rewrite foldl_addEntry_nil. unfold Go.len, maxEntries in *.
    rewrite length_take, length_reverse. lia.
  - rewrite foldl_addEntry_nil. unfold Go.len, maxEntries in *.
    rewrite <- (take_drop (length msgs - Z.to_nat 20)%nat msgs) at 1.
    rewrite reverse_app, take_app_le
      by (rewrite length_reverse, length_drop; lia).
    rewrite take_ge; [reflexivity|].
    rewrite length_reverse, length_drop. lia.
  - intros kept oldest message Hfull Hlen. rewrite Hfull in *.
    rewrite addEntry_take. unfold Go.len, maxEntries in *.
    rewrite length_app in Hlen. simpl in Hlen.
    change (Z.to_nat 20) with (S 19). simpl. f_equal.
    rewrite take_app_le by lia. apply take_ge. lia.
Qed.

(** ** Rendering: [formatEntriesWithFade] *)

Lemma fadeBucket_bounds (i n : Z) :
  0 ≤ i < n → 0 ≤ fadeBucket i n ≤ Go.len fadeLevels - 2.
Proof.
  intros Hi. unfold fadeBucket. change (Go.len fadeLevels) with 5.
  split.
  - apply Z.div_pos; lia.
  - assert ((i * (5 - 1)) `div` n < 4); [|lia].
    apply Z.div_lt_upper_bound; lia.
Qed.

Lemma fadeBucket_mono (i j n : Z) :
  0 < n → i ≤ j → fadeBucket i n ≤ fadeBucket j n.
Proof.
  intros Hn Hij. unfold fadeBucket. change (Go.len fadeLevels) with 5.
  apply Z.div_le_mono; lia.
Qed.

(** On the indices of a slice that fits in memory, the machine arithmetic of
    [fadeIndex] neither wraps nor faults, and computes the bucket. *)
Lemma fadeIndex_fadeBucket (i n : Z) :
  0 ≤ i < n → Go.stringHeaderSize * n < 2 ^ Go.intSize →
  fadeIndex i n = Go.Ok (fadeBucket i n).
Proof.
  intros Hi Hn.
  pose proof (fadeBucket_bounds i n Hi) as Hb.
  unfold fadeIndex, Go.div, Go.mul, Go.sub, fadeBucket in *.
  change (Go.len fadeLevels) with 5 in *.
  unfold Go.stringHeaderSize, Go.intSize in Hn.
  change (Go.wrap (5 - 1)) with 4. change (5 - 1) with 4 in *.
  rewrite (wrap_small (i * 4))
    by (unfold Go.minInt, Go.maxInt, Go.intSize; lia).
  destruct (n =? 0) eqn:Hn0; [apply Z.eqb_eq in Hn0; lia|].
  rewrite Z.quot_div_nonneg by lia.
  rewrite wrap_small by (unfold Go.minInt, Go.maxInt, Go.intSize; lia).
  reflexivity.
Qed.

Lemma fadeLevels_lookup (i n : Z) :
  0 ≤ i < n →
  ∃ color, fadeLevels !! Z.to_nat (fadeBucket i n) = Some color
           ∧ Go.index fadeLevels (fadeBucket i n) = Go.Ok color
           ∧ color ≠ "[black]".
Proof.
  intros Hi. pose proof (fadeBucket_bounds i n Hi) as Hb.
  change (Go.len fadeLevels) with 5 in Hb.
  assert (fadeBucket i n = 0 ∨ fadeBucket i n = 1 ∨ fadeBucket i n = 2
          ∨ fadeBucket i n = 3) as Hcase by lia.
  destruct Hcase as [-> | [-> | [-> | ->]]]; eexists;
    (split; [reflexivity | split; [reflexivity | discriminate]]).
Qed.

Lemma formatLoop_segments (n i : Z) (rest acc : list string) :
  0 ≤ i → i + Go.len rest ≤ n → Go.stringHeaderSize * n < 2 ^ Go.intSize →
  formatLoop n i rest acc
  = Go.Ok (acc ++ imap (λ k, segment n (Z.to_nat i + k)) rest).
Proof.
  revert i acc. induction rest as [|entry rest IH]; intros i acc Hi Hn Hfit.
  - simpl. rewrite app_nil_r. reflexivity.
  - rewrite len_cons in Hn. pose proof (len_nonneg rest) as Hr.
    simpl formatLoop.
    rewrite fadeIndex_fadeBucket by lia.
    destruct (fadeLevels_lookup i n) as (color & Hc & Hix & _); [lia|].
    unfold mbind, result_bind. simpl Go.bind. rewrite Hix. simpl Go.bind.
    assert (Go.add i 1 = i + 1) as ->.
    { unfold Go.add. apply wrap_small.
      unfold Go.minInt, Go.maxInt, Go.stringHeaderSize, Go.intSize in *. lia. }
    rewrite IH by lia.
    rewrite <- app_assoc. simpl.
    do 3 f_equal.
    + unfold segment. rewrite Nat.add_0_r, Z2Nat.id, Hc by lia. reflexivity.
    + apply imap_ext. intros k e _. simpl.
      f_equal. rewrite Z2Nat.inj_add by lia. simpl. lia.
Qed.

(** The code computes what the specification's [render] describes. *)
Lemma formatEntriesWithFade_render (entries : list string) :
  Go.fits_in_memory entries →
  formatEntriesWithFade entries = Go.Ok (render entries).
Proof.
  intros Hfit. unfold formatEntriesWithFade, render.
  rewrite formatLoop_segments; [reflexivity | lia | lia | exact Hfit].
Qed.

(** C2. For a buffer of [n ≥ 1] entries, [formatEntriesWithFade] returns
    [n] segments joined by blank lines; the segment of the entry at position
    [i] is [color + entry + "[-]"] where [color] is the fade level at index
    [floor(i * (K-1) / n)], [K = 5]; the newest entry gets the first level;
    and the index does not decrease with the position. *)
Theorem formatEntriesWithFade_segments (entries : list string) :
  1 ≤ Go.len entries → Go.fits_in_memory entries →
  let n := Go.len entries in
  ∃ segments : list string,
    formatEntriesWithFade entries
    = Go.Ok (Go.Join segments (String Go.LF (String Go.LF ""))) ∧
    Go.len segments = n ∧
    (∀ (i : nat) (entry : string), entries !! i = Some entry →
       ∃ color : string,
         fadeIndex (Z.of_nat i) n = Go.Ok (fadeBucket (Z.of_nat i) n) ∧
         Go.index fadeLevels (fadeBucket (Z.of_nat i) n) = Go.Ok color ∧
         segments !! i = Some (color +:+ entry +:+ "[-]")) ∧
    Go.len fadeLevels = 5 ∧
    fadeIndex 0 n = Go.Ok 0 ∧
    Go.index fadeLevels 0 = Go.Ok "[white]" ∧
    (∀ i j : Z, 0 ≤ i → i ≤ j → j < n → fadeBucket i n ≤ fadeBucket j n).
Proof.
  intros Hn Hfit n.
  exists (imap (segment n) entries). repeat split.
  - apply formatEntriesWithFade_render, Hfit.
  - unfold Go.len. rewrite length_imap. reflexivity.
  - intros i entry Hi.
    assert (0 ≤ Z.of_nat i < n) as Hin.
    { apply lookup_lt_Some in Hi. unfold n, Go.len. lia. }
    destruct (fadeLevels_lookup (Z.of_nat i) n Hin) as (color & Hc & Hix & _).
    exists color. split; [|split].
    + apply fadeIndex_fadeBucket; [exact Hin | exact Hfit].
    + exact Hix.
    + rewrite list_lookup_imap, Hi. simpl. unfold segment.
      rewrite Hc. reflexivity.
  - rewrite fadeIndex_fadeBucket; [reflexivity | lia | exact Hfit].
  - intros i j Hi Hij Hj. apply fadeBucket_mono; lia.
Qed.

(** C5. Rendering the empty buffer gives the empty string and does not
    fault: the loop body, where the division by [len(entries)] stands, is
    not reached, although that division would fault if it were. *)
Theorem formatEntriesWithFade_empty :
  formatEntriesWithFade [] = Go.Ok "" ∧
  (∀ (n i : Z) (formattedEntries : list string),
     formatLoop n i [] formattedEntries = Go.Ok formattedEntries) ∧
  (∀ i : Z, fadeIndex i (Go.len (@nil string))
            = Go.Panic "runtime error: integer divide by zero").
Proof.
  split; [reflexivity | split; [reflexivity | intros i; reflexivity]].
Qed.

(** C9. For a buffer of [n ≥ 1] entries and a position [0 ≤ i < n], the
    fade index is at most [len(fadeLevels) - 2 = 3]: the lookup in
    [fadeLevels] is in bounds, and its result is never the last level,
    ["[black]"]. *)
Theorem fadeIndex_never_last (entries : list string) (i : Z) :
  1 ≤ Go.len entries → Go.fits_in_memory entries →
  0 ≤ i → i < Go.len entries →
  ∃ (k : Z) (color : string),
    formatEntriesWithFade entries = Go.Ok (render entries) ∧
    fadeIndex i (Go.len entries) = Go.Ok k ∧
    0 ≤ k ∧ k ≤ Go.len fadeLevels - 2 ∧ Go.len fadeLevels - 2 = 3 ∧
    Go.index fadeLevels k = Go.Ok color ∧
    Go.index fadeLevels (Go.len fadeLevels - 1) = Go.Ok "[black]" ∧
    color ≠ "[black]".
Proof.
  intros Hn Hfit Hi0 Hi.
  destruct (fadeLevels_lookup i (Go.len entries)) as (color & _ & Hix & Hne);
    [lia|].
  pose proof (fadeBucket_bounds i (Go.len entries)) as Hb.
  exists (fadeBucket i (Go.len entries)), color.
  split; [apply formatEntriesWithFade_render, Hfit|].
  split; [apply fadeIndex_fadeBucket; [lia | exact Hfit]|].
  repeat split; try (exact Hix || exact Hne || lia).
Qed.

(** ** Lines: [strings.Split] and [strings.Join] *)

Section Lines.
Variable sep : ascii.

Lemma Split_cons (s : string) :
  ∃ piece pieces, Go.Split s sep = piece :: pieces.
Proof.
  destruct s as [|c s]; simpl; [eauto|].
  destruct (Ascii.eqb c sep); [eauto|].
  destruct (Go.Split s sep); eauto.
Qed.

Lemma Split_String (c : ascii) (s : string) :
  Go.Split (String c s) sep
  = if Ascii.eqb c sep then "" :: Go.Split s sep
    else match Go.Split s sep with
         | piece :: pieces => String c piece :: pieces
         | [] => [String c ""]
         end.
Proof. reflexivity. Qed.

Lemma Join_cons_cons (e e' : string) (rest : list string) (sp : string) :
  Go.Join (e :: e' :: rest) sp = e +:+ sp +:+ Go.Join (e' :: rest) sp.
Proof. reflexivity. Qed.

Lemma Join_String (c : ascii) (e : string) (rest : list string) (sp : string) :
  Go.Join (String c e :: rest) sp = String c (Go.Join (e :: rest) sp).
Proof. destruct rest; reflexivity. Qed.

(** Joining the pieces with the separator gives the string back. *)
Lemma Join_Split (s : string) : Go.Join (Go.Split s sep) (String sep "") = s.
Proof.
  induction s as [|c s IH]; [reflexivity|].
  rewrite Split_String.
  destruct (Ascii.eqb_spec c sep) as [->|Hne].
  - destruct (Split_cons s) as (piece & pieces & Hs).
    rewrite Hs in *. rewrite Join_cons_cons, IH. reflexivity.
  - destruct (Split_cons s) as (piece & pieces & Hs).
    rewrite Hs in *. rewrite Join_String, IH. reflexivity.
Qed.

(** No piece contains the separator. *)
Lemma Split_pieces (s : string) :
  Forall (λ piece, Go.ContainsByte piece sep = false) (Go.Split s sep).
Proof.
  induction s as [|c s IH]; [repeat constructor|].
  rewrite Split_String.
  destruct (Ascii.eqb_spec c sep) as [->|Hne].
  - constructor; [reflexivity | exact IH].
  - destruct (Split_cons s) as (piece & pieces & Hs).
    rewrite Hs in *. inversion IH as [|? ? Hp Hps]; subst.
    constructor; [|exact Hps]. simpl.
    rewrite Hp. destruct (Ascii.eqb_spec c sep); [contradiction|reflexivity].
Qed.

Lemma Split_line (line : string) :
  Go.ContainsByte line sep = false → Go.Split line sep = [line].
Proof.
  induction line as [|c line IH]; [reflexivity|].
  simpl. destruct (Ascii.eqb c sep); [discriminate|].
  simpl. intros H. rewrite (IH H). reflexivity.
Qed.

Lemma Split_line_sep (line s : string) :
  Go.ContainsByte line sep = false →
  Go.Split (line +:+ String sep s) sep = line :: Go.Split s sep.
Proof.
  induction line as [|c line IH]; simpl.
  - intros _. rewrite Ascii.eqb_refl. reflexivity.
  - destruct (Ascii.eqb c sep); [discriminate|].
    simpl. intros H. rewrite (IH H). reflexivity.
Qed.

(** Splitting lines that were joined gives the lines back, whatever they
    contain besides the separator, empty lines included. *)
Lemma Split_Join (line : string) (lines : list string) :
  Forall (λ l, Go.ContainsByte l sep = false) (line :: lines) →
  Go.Split (Go.Join (line :: lines) (String sep "")) sep = line :: lines.
Proof.
  revert line. induction lines as [|line' lines IH]; intros line Hall.
  - inversion Hall; subst. apply Split_line. assumption.
  - inversion Hall as [|? ? Hl Hrest]; subst.
    rewrite Join_cons_cons.
    change (String sep "" +:+ ?x) with (String sep x).
    rewrite Split_line_sep by exact Hl. rewrite IH by exact Hrest.
    reflexivity.
Qed.

(** Fewer than two pieces: exactly when the separator does not occur. *)
Lemma Split_len_lt_2 (s : string) :
  Go.len (Go.Split s sep) < 2 ↔ Go.ContainsByte s sep = false.
Proof.
  split.
  - intros Hlen. pose proof (Join_Split s) as Hj.
    pose proof (Split_pieces s) as Hp.
    destruct (Go.Split s sep) as [|piece [|piece' pieces]].
    + simpl in Hj. subst s. reflexivity.
    + simpl in Hj. subst s. inversion Hp; assumption.
    + rewrite !len_cons in Hlen. pose proof (len_nonneg pieces). lia.
  - intros H. rewrite Split_line by exact H. reflexivity.
Qed.

End Lines.

(** ** The classifier: [analyzeWithOllama] *)

Section Classifier.
Context {W Response : Type} (host : Host W Response).

Lemma parseOutput_lines (story : Story) (output priority : string)
    (rest : list string) :
  Go.Split output Go.LF = priority :: rest → rest ≠ [] →
  parseOutput story output
  = Go.Ok ({| Title := Story_Title story; URL := Story_URL story;
              Summary := Go.Join rest " "; Priority := priority |}, None).
Proof.
  intros Hsplit Hrest. unfold parseOutput. rewrite Hsplit.
  destruct rest as [|line rest]; [contradiction|].
  assert ((Go.len (priority :: line :: rest) <? 2) = false) as ->.
  { apply Z.ltb_ge. rewrite !len_cons. pose proof (len_nonneg rest). lia. }
  change 0 with (Z.of_nat 0).
  rewrite (index_lookup _ 0 priority) by reflexivity.
  unfold mbind, result_bind, Go.bind, Go.sliceFrom.
  assert ((1 <=? Go.len (priority :: line :: rest)) = true) as ->.
  { apply Z.leb_le. rewrite !len_cons. pose proof (len_nonneg rest). lia. }
  reflexivity.
Qed.

(** The same, read from the lines: whatever the lines contain (no line
    feed, since they are lines), the first is the priority and the others,
    joined by single spaces, are the summary. *)
Lemma parseOutput_of_lines (story : Story) (priority : string)
    (rest : list string) :
  Forall (λ line, Go.ContainsByte line Go.LF = false) (priority :: rest) →
  rest ≠ [] →
  parseOutput story (Go.Join (priority :: rest) (String Go.LF ""))
  = Go.Ok ({| Title := Story_Title story; URL := Story_URL story;
              Summary := Go.Join rest " "; Priority := priority |}, None).
Proof.
  intros Hlines Hrest. apply parseOutput_lines; [|exact Hrest].
  apply Split_Join, Hlines.
Qed.

Lemma parseOutput_short (story : Story) (output : string) :
  Go.len (Go.Split output Go.LF) < 2 →
  parseOutput story output
  = Go.Ok ({| Title := Story_Title story; URL := Story_URL story;
              Summary := invalidFormat; Priority := "Low" |}, None).
Proof.
  intros Hlen. unfold parseOutput.
  apply Z.ltb_lt in Hlen. rewrite Hlen. reflexivity.
Qed.

Lemma analyzeWithOllama_ran (story : Story) (output : string) (w w' : W) :
  exec_Run host "ollama" ["run"; "llama3.2"; prompt story] w
  = ((output, None), w') →
  analyzeWithOllama host story w = (parseOutput story output, w').
Proof. intros Hrun. unfold analyzeWithOllama. rewrite Hrun. reflexivity. Qed.

Lemma analyzeWithOllama_failed (story : Story) (out : string)
    (err : Go.error) (w w' : W) :
  exec_Run host "ollama" ["run"; "llama3.2"; prompt story] w
  = ((out, Some err), w') →
  analyzeWithOllama host story w
  = (Go.Ok (HighValueInsight_zero,
            Some ("failed to execute Ollama command: " +:+ err)), w').
Proof. intros Hrun. unfold analyzeWithOllama. rewrite Hrun. reflexivity. Qed.

(** C3. When the command ran and its output splits at line feeds into at
    least two lines, [analyzeWithOllama] returns, without error, the insight
    whose priority is the first line as it is and whose summary is the other
    lines joined by single spaces; the title and URL are the story's. *)
Theorem analyzeWithOllama_priority_summary (story : Story) (output : string)
    (w w' : W) :
  exec_Run host "ollama" ["run"; "llama3.2"; prompt story] w
  = ((output, None), w') →
  2 ≤ Go.len (Go.Split output Go.LF) →
  ∃ (priority : string) (rest : list string),
    Go.Split output Go.LF = priority :: rest ∧
    output = Go.Join (priority :: rest) (String Go.LF "") ∧
    analyzeWithOllama host story w
    = (Go.Ok ({| Title := Story_Title story; URL := Story_URL story;
                 Summary := Go.Join rest " "; Priority := priority |}, None),
       w').
Proof.
  intros Hrun Hlen.
  destruct (Split_cons Go.LF output) as (priority & rest & Hsplit).
  exists priority, rest. split; [exact Hsplit|]. split.
  - rewrite <- Hsplit. symmetry. apply Join_Split.
  - rewrite (analyzeWithOllama_ran _ _ _ _ Hrun). f_equal.
    apply parseOutput_lines; [exact Hsplit|].
    intros ->. rewrite Hsplit in Hlen. unfold Go.len in Hlen. simpl in Hlen. lia.
Qed.

(** C4. When the command ran and its output splits into fewer than two
    lines (it holds no line feed; the empty output is such), then
    [analyzeWithOllama] returns, without error, the insight with priority
    ["Low"], the fixed invalid-format summary, and the story's title and
    URL. *)
Theorem analyzeWithOllama_invalid_format (story : Story) (output : string)
    (w w' : W) :
  exec_Run host "ollama" ["run"; "llama3.2"; prompt story] w
  = ((output, None), w') →
  Go.len (Go.Split output Go.LF) < 2 →
  Go.ContainsByte output Go.LF = false ∧
  Go.len (Go.Split "" Go.LF) < 2 ∧
  analyzeWithOllama host story w
  = (Go.Ok ({| Title := Story_Title story; URL := Story_URL story;
               Summary := "[red]Invalid response format from Ollama[-]";
               Priority := "Low" |}, None),
     w').
Proof.
  intros Hrun Hlen. split; [apply Split_len_lt_2, Hlen|].
  split; [reflexivity|].
  rewrite (analyzeWithOllama_ran _ _ _ _ Hrun). f_equal.
  apply parseOutput_short, Hlen.
Qed.

End Classifier.

(** ** The poll loop *)

Section PollLoop.
Context {W Response : Type} (host : Host W Response).

Lemma fetchTopStories_fails (seen : gmap Z bool) (w w' : W) (err : Go.error) :
  listFetchFails host w err w' →
  fetchTopStories host seen w = ((([], Some err), seen), w').
Proof.
  intros [w1 Hget | resp w1 w2 Hget Hread | resp body w1 w2 Hget Hread Hdec];
    unfold fetchTopStories; rewrite Hget; try rewrite Hread;
    try rewrite Hdec; reflexivity.
Qed.

Lemma fetchTopStories_error (seen seen' : gmap Z bool) (w w' : W)
    (stories : list Story) (err : Go.error) :
  fetchTopStories host seen w = (((stories, Some err), seen'), w') →
  listFetchFails host w err w' ∧ stories = [] ∧ seen' = seen.
Proof.
  unfold fetchTopStories.
  destruct (http_Get host topstoriesURL w) as [[resp|e] w1] eqn:Hget.
  - destruct (ioutil_ReadAll host resp w1) as [[body|e] w2] eqn:Hread.
    + destruct (json_Unmarshal_ints host body) as [ids|e] eqn:Hdec.
      * destruct (fetchLoop host ids [] seen w2) as [[? ?] ?]. discriminate.
      * intros [= <- <- <- <-]. eauto using decode_fails.
    + intros [= <- <- <- <-]. eauto using read_fails.
  - intros [= <- <- <- <-]. eauto using request_fails.
Qed.

(** One turn of the loop, once the entries it ends with are known. *)
Lemma pollOnce_entries (st : State) (w w1 w2 : W) (stories : list Story)
    (err : option Go.error) (seen : gmap Z bool) (entries' : list string) :
  fetchTopStories host (seenStoryIDs st) w = (((stories, err), seen), w1) →
  match err with
  | Some err => (Go.Ok (addEntry (entries st) (formatError err)), w1)
  | None => storiesLoop host stories (entries st) w1
  end = (Go.Ok entries', w2) →
  Go.fits_in_memory entries' →
  pollOnce host st w
  = (Go.Ok {| entries := entries'; seenStoryIDs := seen;
              feedViewText := render entries' |},
     time_Sleep host pollInterval w2).
Proof.
  intros Hfetch Hentries Hfit. unfold pollOnce.
  rewrite Hfetch, Hentries, (formatEntriesWithFade_render _ Hfit).
  reflexivity.
Qed.

Lemma poll_S (n : nat) (st st' : State) (w w' : W) :
  pollOnce host st w = (Go.Ok st', w') →
  poll host (S n) st w = poll host n st' w'.
Proof. intros H. simpl. rewrite H. reflexivity. Qed.

(** C8. When the fetch of the list of story identifiers fails (in the
    request, in reading the body, or in decoding it), the turn of the loop
    does not abort: it puts the one entry ["[red]Error: " + err + "[-]"] in
    front of the buffer, which is otherwise unchanged up to the cut at
    [maxEntries]; the set of seen identifiers is unchanged, and the loop
    goes on with its next turn. *)
Theorem fetch_failure_error_entry (st : State) (w w' : W) (err : Go.error) :
  listFetchFails host w err w' →
  let errorEntry := "[red]Error: " +:+ err +:+ "[-]" in
  let st' := {| entries := addEntry (entries st) errorEntry;
                seenStoryIDs := seenStoryIDs st;
                feedViewText := render (addEntry (entries st) errorEntry) |} in
  fetchTopStories host (seenStoryIDs st) w
  = ((([], Some err), seenStoryIDs st), w') ∧
  addEntry (entries st) errorEntry
  = take (Z.to_nat maxEntries) (errorEntry :: entries st) ∧
  pollOnce host st w = (Go.Ok st', time_Sleep host pollInterval w') ∧
  (∀ n : nat,
     poll host (S n) st w = poll host n st' (time_Sleep host pollInterval w')).
Proof.
  intros Hfail errorEntry st'.
  pose proof (fetchTopStories_fails (seenStoryIDs st) _ _ _ Hfail) as Hfetch.
  assert (pollOnce host st w = (Go.Ok st', time_Sleep host pollInterval w'))
    as Hpoll.
  { eapply pollOnce_entries; [exact Hfetch | reflexivity | apply addEntry_fits]. }
  split; [exact Hfetch|]. split; [apply addEntry_take|].
  split; [exact Hpoll|]. intros n. apply poll_S, Hpoll.
Qed.

(** C6. When the command of the classifier fails, [analyzeWithOllama]
    returns an error (and the zero insight); [main] then still inserts an
    entry, in front of the buffer: the text
    ["[yellow]Priority: [-]\n[green][-]\n\n[red]Analysis not available[-]"],
    whose summary line is the fixed placeholder; it goes on with the other
    stories of the poll, and the loop goes on with its next turn. *)
Theorem classifier_failure_placeholder (story : Story) (out : string)
    (err : Go.error) (w w' : W) :
  exec_Run host "ollama" ["run"; "llama3.2"; prompt story] w
  = ((out, Some err), w') →
  let placeholderEntry :=
    "[yellow]Priority: [-]" +:+ String Go.LF "[green][-]" +:+ String Go.LF
    "" +:+ String Go.LF "[red]Analysis not available[-]" in
  let st_after (st : State) (seen : gmap Z bool) :=
    {| entries := addEntry (entries st) placeholderEntry;
       seenStoryIDs := seen;
       feedViewText := render (addEntry (entries st) placeholderEntry) |} in
  analyzeWithOllama host story w
  = (Go.Ok (HighValueInsight_zero,
            Some ("failed to execute Ollama command: " +:+ err)), w') ∧
  Summary placeholderInsight = "[red]Analysis not available[-]" ∧
  Go.Split placeholderEntry Go.LF
  = ["[yellow]Priority: [-]"; "[green][-]"; "";
     "[red]Analysis not available[-]"] ∧
  (∀ (stories' : list Story) (entries : list string),
     storiesLoop host (story :: stories') entries w
     = storiesLoop host stories' (addEntry entries placeholderEntry) w' ∧
     addEntry entries placeholderEntry
     = take (Z.to_nat maxEntries) (placeholderEntry :: entries)) ∧
  (∀ (st : State) (seen : gmap Z bool) (w0 : W) (n : nat),
     fetchTopStories host (seenStoryIDs st) w0 = ((([story], None), seen), w) →
     pollOnce host st w0
     = (Go.Ok (st_after st seen), time_Sleep host pollInterval w') ∧
     poll host (S n) st w0
     = poll host n (st_after st seen) (time_Sleep host pollInterval w')).
Proof.
  intros Hrun placeholderEntry st_after.
  pose proof (analyzeWithOllama_failed host story out err w w' Hrun) as Hfail.
  assert (∀ stories' entries,
            storiesLoop host (story :: stories') entries w
            = storiesLoop host stories' (addEntry entries placeholderEntry) w')
    as Hloop.
  { intros stories' entries. simpl. rewrite Hfail. reflexivity. }
  split; [exact Hfail|]. split; [reflexivity|]. split; [reflexivity|].
  split; [intros stories' entries; split; [apply Hloop | apply addEntry_take]|].
  intros st seen w0 n Hfetch.
  assert (pollOnce host st w0
          = (Go.Ok (st_after st seen), time_Sleep host pollInterval w'))
    as Hpoll.
  { eapply pollOnce_entries; [exact Hfetch | | apply addEntry_fits].
    rewrite Hloop. reflexivity. }
  split; [exact Hpoll | apply poll_S, Hpoll].
Qed.

End PollLoop.

(** ** De-duplication: [fetchTopStories] and the seen identifiers *)

Section SeenIDs.
Context {W Response : Type} (host : Host W Response).

Lemma seenLookup_insert (seen : gmap Z bool) (id k : Z) :
  seenLookup (<[id := true]> seen) k
  = if decide (id = k) then true else seenLookup seen k.
Proof.
  unfold seenLookup. rewrite lookup_insert.
  destruct (decide (id = k)); reflexivity.
Qed.

Lemma len_fmap {A B} (f : A → B) (s : list A) : Go.len (f <$> s) = Go.len s.
Proof. unfold Go.len. rewrite length_fmap. reflexivity. Qed.

(** Forgetting the tags gives [fetchLoop] back. *)
Lemma fetchLoop_tagged (storyIDs : list Z) (fetched : list (Z * Story))
    (seen : gmap Z bool) (w : W) :
  fetchLoop host storyIDs (fetched.*2) seen w
  = let '((fetched', seen'), w') :=
      fetchLoopTagged host storyIDs fetched seen w in
    ((fetched'.*2, seen'), w').
Proof.
  revert fetched seen w.
  induction storyIDs as [|id storyIDs IH]; intros fetched seen w;
    [reflexivity|].
  simpl. destruct (negb (seenLookup seen id)).
  - destruct (fetchStoryDetails host id w) as [[story [e|]] w1].
    + rewrite len_fmap.
      destruct (Go.len fetched >=? numStoriesFetch); [reflexivity | apply IH].
    + replace (fetched.*2 ++ [story]) with ((fetched ++ [(id, story)]).*2)
        by (rewrite fmap_app; reflexivity).
      rewrite len_fmap.
      destruct (Go.len (fetched ++ [(id, story)]) >=? numStoriesFetch);
        [reflexivity | apply IH].
  - rewrite len_fmap.
    destruct (Go.len fetched >=? numStoriesFetch); [reflexivity | apply IH].
Qed.

Lemma fetchLoopTagged_new (storyIDs : list Z) (fetched fetched' : list (Z * Story))
    (seen seen' : gmap Z bool) (w w' : W) :
  fetchLoopTagged host storyIDs fetched seen w = ((fetched', seen'), w') →
  ∃ new : list (Z * Story),
    fetched' = fetched ++ new ∧
    (length new ≤ 1)%nat ∧
    Forall (λ p, fetchedFor host storyIDs seen p.1 p.2) new ∧
    (∀ k : Z, seenLookup seen' k = true
              ↔ seenLookup seen k = true ∨ k ∈ new.*1).
Proof.
  revert fetched seen w.
  induction storyIDs as [|id storyIDs IH]; intros fetched seen w Hloop.
  - injection Hloop as <- <- <-. exists []. rewrite app_nil_r.
    repeat split; auto. intros [?|Hin]; [done | inversion Hin].
  - assert (∀ w1, (if Go.len fetched >=? numStoriesFetch
                   then ((fetched, seen), w1)
                   else fetchLoopTagged host storyIDs fetched seen w1)
                  = ((fetched', seen'), w') →
            ∃ new, fetched' = fetched ++ new ∧ (length new ≤ 1)%nat ∧
              Forall (λ p, fetchedFor host (id :: storyIDs) seen p.1 p.2) new ∧
              (∀ k, seenLookup seen' k = true
                    ↔ seenLookup seen k = true ∨ k ∈ new.*1)) as Hskip.
    { intros w1 H. destruct (Go.len fetched >=? numStoriesFetch).
      - injection H as <- <- <-. exists []. rewrite app_nil_r.
        repeat split; auto. intros [?|Hin]; [done | inversion Hin].
      - destruct (IH _ _ _ H) as (new & -> & Hlen & Hall & Hseen).
        exists new. repeat split; try (exact Hlen || apply Hseen).
        eapply Forall_impl; [exact Hall|].
        intros [k s] (Hin & Hk & Hf). split; [|split]; auto.
        apply list_elem_of_further, Hin. }
    simpl in Hloop. destruct (seenLookup seen id) eqn:Hid; simpl in Hloop.
    + eapply Hskip, Hloop.
    + destruct (fetchStoryDetails host id w) as [[story [e|]] w1] eqn:Hfetch.
      * eapply Hskip, Hloop.
      * assert ((Go.len (fetched ++ [(id, story)]) >=? numStoriesFetch) = true)
          as Hfull.
        { rewrite Z.geb_leb. apply Z.leb_le. rewrite len_app.
          pose proof (len_nonneg fetched). unfold numStoriesFetch, Go.len.
          simpl. lia. }
        rewrite Hfull in Hloop. injection Hloop as <- <- <-.
        exists [(id, story)]. repeat split; auto.
        -- constructor; [|constructor]. split; [apply list_elem_of_here|].
           split; [exact Hid | eauto].
        -- rewrite seenLookup_insert. simpl.
           destruct (decide (id = k)) as [->|Hne]; intros H.
           ++ right. apply list_elem_of_here.
           ++ left. exact H.
        -- rewrite seenLookup_insert. simpl. intros [H|Hin].
           ++ rewrite H. destruct (decide (id = k)); reflexivity.
           ++ apply list_elem_of_singleton in Hin. subst k.
              destruct (decide (id = id)); [reflexivity | contradiction].
Qed.

End SeenIDs.

(** ** The loop never faults *)

Section NoPanic.
Context {W Response : Type} (host : Host W Response).

Lemma parseOutput_ok (story : Story) (output : string) :
  ∃ insight, parseOutput story output = Go.Ok (insight, None).
Proof.
  destruct (Z.lt_ge_cases (Go.len (Go.Split output Go.LF)) 2) as [Hlt|Hge].
  - eexists. apply parseOutput_short, Hlt.
  - destruct (Split_cons Go.LF output) as (priority & rest & Hsplit).
    eexists. apply (parseOutput_lines story output priority rest Hsplit).
    intros ->. rewrite Hsplit in Hge. unfold Go.len in Hge. simpl in Hge. lia.
Qed.

Lemma analyzeWithOllama_ok (story : Story) (w : W) :
  ∃ insight err w', analyzeWithOllama host story w = (Go.Ok (insight, err), w').
Proof.
  unfold analyzeWithOllama.
  destruct (exec_Run host _ _ w) as [[out [e|]] w'].
  - eauto.
  - destruct (parseOutput_ok story out) as [insight ->]. eauto.
Qed.

(** [main] inserts one entry for each story of the poll. *)
Lemma storiesLoop_inserts (stories : list Story) (entries : list string) (w : W) :
  ∃ (messages : list string) (w' : W),
    storiesLoop host stories entries w
    = (Go.Ok (foldl addEntry entries messages), w')
    ∧ length messages = length stories.
Proof.
  revert entries w. induction stories as [|story stories IH]; intros entries w.
  - exists [], w. split; reflexivity.
  - simpl. destruct (analyzeWithOllama_ok story w) as (insight & err & w1 & ->).
    match goal with
    | |- context [storiesLoop host stories (addEntry entries ?m) w1] =>
        destruct (IH (addEntry entries m) w1) as (messages & w' & -> & Hlen);
        exists (m :: messages), w'
    end.
    split; [reflexivity | simpl; congruence].
Qed.

Lemma foldl_addEntry_fits (messages entries : list string) :
  Go.fits_in_memory entries →
  Go.fits_in_memory (foldl addEntry entries messages).
Proof.
  revert entries. induction messages as [|m messages IH]; intros entries Hfit;
    [exact Hfit|].
  simpl. apply IH, addEntry_fits.
Qed.

Lemma pollOnce_ok (st : State) (w : W) :
  Go.fits_in_memory (entries st) →
  ∃ st' w', pollOnce host st w = (Go.Ok st', w')
            ∧ Go.fits_in_memory (entries st')
            ∧ seenStoryIDs st' = (fetchTopStories host (seenStoryIDs st) w).1.2.
Proof.
  intros Hfit.
  destruct (fetchTopStories host (seenStoryIDs st) w)
    as [[[stories err] seen] w1] eqn:Hfetch.
  destruct err as [err|].
  - eexists _, _. split; [|split].
    + eapply pollOnce_entries; [exact Hfetch | reflexivity | apply addEntry_fits].
    + apply addEntry_fits.
    + reflexivity.
  - destruct (storiesLoop_inserts stories (entries st) w1)
      as (messages & w2 & Hloop & _).
    eexists _, _. split; [|split].
    + eapply pollOnce_entries; [exact Hfetch | exact Hloop |].
      apply foldl_addEntry_fits, Hfit.
    + apply foldl_addEntry_fits, Hfit.
    + reflexivity.
Qed.

(** From a buffer that fits in memory (the empty one, at the start), every
    number of turns of the loop is completed without a fault. *)
Lemma poll_ok (n : nat) (st : State) (w : W) :
  Go.fits_in_memory (entries st) →
  ∃ st' w', poll host n st w = (Go.Ok st', w')
            ∧ Go.fits_in_memory (entries st').
Proof.
  revert st w. induction n as [|n IH]; intros st w Hfit.
  - exists st, w. split; [reflexivity | exact Hfit].
  - destruct (pollOnce_ok st w Hfit) as (st1 & w1 & Hone & Hfit1 & _).
    simpl. rewrite Hone. apply IH, Hfit1.
Qed.

End NoPanic.

(** ** Skipped and returned stories *)

Section Stories.
Context {W Response : Type} (host : Host W Response).

Lemma fetchStoryDetails_fails (id : Z) (w w' : W) (err : Go.error) :
  storyFetchFails host id w err w' →
  fetchStoryDetails host id w = ((Story_zero, Some err), w').
Proof.
  intros [w1 Hget | resp w1 w2 Hget Hread | resp body w1 w2 Hget Hread Hdec];
    unfold fetchStoryDetails; rewrite Hget; try rewrite Hread;
    try rewrite Hdec; reflexivity.
Qed.

Lemma fetchStoryDetails_error (id : Z) (w w' : W) (story : Story)
    (err : Go.error) :
  fetchStoryDetails host id w = ((story, Some err), w') →
  storyFetchFails host id w err w' ∧ story = Story_zero.
Proof.
  unfold fetchStoryDetails.
  destruct (http_Get host (itemURL id) w) as [[resp|e] w1] eqn:Hget.
  - destruct (ioutil_ReadAll host resp w1) as [[body|e] w2] eqn:Hread.
    + destruct (json_Unmarshal_Story host body) as [s|e] eqn:Hdec.
      * discriminate.
      * intros [= <- <- <-]. eauto using story_decode_fails.
    + intros [= <- <- <-]. eauto using story_read_fails.
  - intros [= <- <- <-]. eauto using story_request_fails.
Qed.

Lemma fetchLoop_skip (id : Z) (storyIDs' : list Z) (stories : list Story)
    (seen : gmap Z bool) (story0 : Story) (err : Go.error) (w w' : W) :
  seenLookup seen id = false →
  fetchStoryDetails host id w = ((story0, Some err), w') →
  Go.len stories < numStoriesFetch →
  fetchLoop host (id :: storyIDs') stories seen w
  = fetchLoop host storyIDs' stories seen w'.
Proof.
  intros Hid Hfetch Hlen. simpl. rewrite Hid, Hfetch. simpl.
  assert ((Go.len stories >=? numStoriesFetch) = false) as ->;
    [|reflexivity].
  rewrite Z.geb_leb. apply Z.leb_gt, Hlen.
Qed.

Lemma fetchTopStories_listed (seen : gmap Z bool) (storyIDs : list Z)
    (resp : Response) (body : string) (w0 w1 w2 : W) :
  http_Get host topstoriesURL w0 = (Go.Got resp, w1) →
  ioutil_ReadAll host resp w1 = (Go.Got body, w2) →
  json_Unmarshal_ints host body = Go.Got storyIDs →
  fetchTopStories host seen w0
  = let '((stories, seen'), w3) := fetchLoop host storyIDs [] seen w2 in
    (((stories, None), seen'), Body_Close host resp w3).
Proof.
  intros Hget Hread Hdec. unfold fetchTopStories.
  rewrite Hget, Hread, Hdec. reflexivity.
Qed.

(** C7. When the fetch of the details of a story fails (in the request, in
    reading the body, or in decoding it), [fetchTopStories] skips that
    identifier: the loop goes on with the other identifiers from
    the stories and the seen set it had; the call returns what the other
    identifiers alone give, with a nil error; and the turn of the poll loop
    completes with the entries of those stories only, the buffer being
    unchanged when there are none. *)
Theorem failed_story_skipped (id : Z) (storyIDs' : list Z)
    (seen : gmap Z bool) (err : Go.error) (w w' : W) :
  seenLookup seen id = false →
  storyFetchFails host id w err w' →
  fetchStoryDetails host id w = ((Story_zero, Some err), w') ∧
  (∀ stories : list Story, Go.len stories < numStoriesFetch →
     fetchLoop host (id :: storyIDs') stories seen w
     = fetchLoop host storyIDs' stories seen w') ∧
  (∀ (w0 w1 : W) (resp : Response) (body : string),
     http_Get host topstoriesURL w0 = (Go.Got resp, w1) →
     ioutil_ReadAll host resp w1 = (Go.Got body, w) →
     json_Unmarshal_ints host body = Go.Got (id :: storyIDs') →
     ∃ (stories : list Story) (seen' : gmap Z bool) (w2 : W),
       fetchLoop host storyIDs' [] seen w' = ((stories, seen'), w2) ∧
       fetchTopStories host seen w0
       = (((stories, None), seen'), Body_Close host resp w2) ∧
       (storyIDs' = [] → stories = [] ∧ seen' = seen) ∧
       ∀ st : State, seenStoryIDs st = seen →
         Go.fits_in_memory (entries st) →
         ∃ (entries' : list string) (w3 : W),
           storiesLoop host stories (entries st) (Body_Close host resp w2)
           = (Go.Ok entries', w3) ∧
           pollOnce host st w0
           = (Go.Ok {| entries := entries'; seenStoryIDs := seen';
                       feedViewText := render entries' |},
              time_Sleep host pollInterval w3) ∧
           (stories = [] → entries' = entries st)).
Proof.
  intros Hid Hfails.
  pose proof (fetchStoryDetails_fails _ _ _ _ Hfails) as Hfetch.
  split; [exact Hfetch|]. split.
  - intros stories Hlen. eapply fetchLoop_skip; eassumption.
  - intros w0 w1 resp body Hget Hread Hdec.
    destruct (fetchLoop host storyIDs' [] seen w') as [[stories seen'] w2]
      eqn:Hrest.
    assert (fetchTopStories host seen w0
            = (((stories, None), seen'), Body_Close host resp w2)) as Htop.
    { rewrite (fetchTopStories_listed _ _ _ _ _ _ _ Hget Hread Hdec).
      rewrite (fetchLoop_skip _ _ _ _ _ _ _ _ Hid Hfetch) by reflexivity.
      rewrite Hrest. reflexivity. }
    exists stories, seen', w2. split; [reflexivity|]. split; [exact Htop|].
    split.
    { intros ->. simpl in Hrest. injection Hrest as <- <- <-. auto. }
    intros st Hseen Hfit. subst seen.
    destruct (storiesLoop_inserts host stories (entries st)
                (Body_Close host resp w2)) as (messages & w3 & Hloop & Hlen).
    exists (foldl addEntry (entries st) messages), w3.
    split; [exact Hloop|]. split.
    + eapply pollOnce_entries; [exact Htop | exact Hloop |].
      apply foldl_addEntry_fits, Hfit.
    + intros ->. destruct messages; [reflexivity | discriminate].
Qed.

Lemma fetchTopStories_ids (seen seen' : gmap Z bool) (w w' : W)
    (stories : list Story) (err : option Go.error) :
  fetchTopStories host seen w = (((stories, err), seen'), w') →
  (length (fetchedIDs host seen w) ≤ 1)%nat ∧
  Forall2 (λ id story,
             seenLookup seen id = false ∧
             ∃ w1 w2 : W, fetchStoryDetails host id w1 = ((story, None), w2))
    (fetchedIDs host seen w) stories ∧
  (∀ k : Z, seenLookup seen' k = true
            ↔ seenLookup seen k = true ∨ k ∈ fetchedIDs host seen w).
Proof.
  unfold fetchTopStories, fetchedIDs.
  assert (∀ s : gmap Z bool, ∀ k : Z,
            seenLookup s k = true ↔ seenLookup s k = true ∨ k ∈ @nil Z)
    as Hnone.
  { intros s k. split; [auto|]. intros [?|Hin]; [done | inversion Hin]. }
  destruct (http_Get host topstoriesURL w) as [[resp|e] w1];
    [|intros [= <- <- <- <-]; simpl; auto using Forall2_nil].
  destruct (ioutil_ReadAll host resp w1) as [[body|e] w2];
    [|intros [= <- <- <- <-]; simpl; auto using Forall2_nil].
  destruct (json_Unmarshal_ints host body) as [storyIDs|e];
    [|intros [= <- <- <- <-]; simpl; auto using Forall2_nil].
  pose proof (fetchLoop_tagged host storyIDs [] seen w2) as Herase.
  simpl in Herase. rewrite Herase.
  destruct (fetchLoopTagged host storyIDs [] seen w2) as [[fetched s] w3]
    eqn:Htagged.
  intros [= <- <- <- <-].
  destruct (fetchLoopTagged_new host _ _ _ _ _ _ _ Htagged)
    as (new & Hnew & Hlen & Hall & Hseen).
  simpl in Hnew. subst fetched. simpl.
  split; [rewrite length_fmap; exact Hlen|]. split; [|exact Hseen].
  apply Forall2_fmap, Forall_Forall2_diag.
  eapply Forall_impl; [exact Hall|].
  intros [k story] (_ & Hk & Hf). simpl. auto.
Qed.

Lemma pollIDs_fresh (n : nat) (st : State) (w : W) :
  Go.fits_in_memory (entries st) →
  NoDup (pollIDs host n st w) ∧
  Forall (λ id, seenLookup (seenStoryIDs st) id = false) (pollIDs host n st w).
Proof.
  revert st w. induction n as [|n IH]; intros st w Hfit.
  - split; constructor.
  - simpl.
    destruct (pollOnce_ok host st w Hfit) as (st1 & w1 & Hone & Hfit1 & Hseen1).
    rewrite Hone.
    destruct (fetchTopStories host (seenStoryIDs st) w)
      as [[[stories err] seen] w2] eqn:Hfetch.
    simpl in Hseen1.
    destruct (fetchTopStories_ids _ _ _ _ _ _ Hfetch) as (Hlen & Hcorr & Hiff).
    destruct (IH st1 w1 Hfit1) as (Hnodup & Hfresh).
    rewrite Hseen1 in Hfresh.
    assert (Forall (λ id, seenLookup (seenStoryIDs st) id = false)
              (fetchedIDs host (seenStoryIDs st) w)) as Hfresh0.
    { apply Forall_forall. intros id Hin.
      apply list_elem_of_lookup in Hin as [i Hi].
      destruct (Forall2_lookup_l _ _ _ _ _ Hcorr Hi) as (story & _ & Hid & _).
      exact Hid. }
    split.
    + apply NoDup_app. split; [|split; [|exact Hnodup]].
      * destruct (fetchedIDs host (seenStoryIDs st) w) as [|a [|b l]];
          [constructor | apply NoDup_singleton | simpl in Hlen; lia].
      * intros id Hin Hin'.
        rewrite Forall_forall in Hfresh. specialize (Hfresh id Hin').
        assert (seenLookup seen id = true) as Hs by (apply Hiff; auto).
        congruence.
    + apply Forall_app. split; [exact Hfresh0|].
      eapply Forall_impl; [exact Hfresh|].
      intros id Hid. destruct (seenLookup (seenStoryIDs st) id) eqn:Hs;
        [|reflexivity].
      assert (seenLookup seen id = true) as Hs' by (apply Hiff; auto).
      congruence.
Qed.

End Stories.

Section OncePerID.
Context {W Response : Type} (host : Host W Response).

(** C10. For a call of [fetchTopStories] with a seen set: every returned
    story was fetched without error for an identifier that was not in the
    set before the call and is in it after; the set after the call is the
    set before plus exactly these identifiers, so an identifier whose fetch
    failed is not added by it; at most [numStoriesFetch] = 1 stories are
    returned; [main] inserts one entry for each of them; and over any number
    of turns of the loop no identifier is returned twice, nor one that was
    seen at the start. *)
Theorem fetchTopStories_once_per_id (seen seen' : gmap Z bool) (w w' : W)
    (stories : list Story) (err : option Go.error) :
  fetchTopStories host seen w = (((stories, err), seen'), w') →
  let ids := fetchedIDs host seen w in
  Forall2 (λ id story,
             seenLookup seen id = false ∧ seenLookup seen' id = true ∧
             ∃ w1 w2 : W, fetchStoryDetails host id w1 = ((story, None), w2))
    ids stories ∧
  (∀ k : Z, seenLookup seen' k = true ↔ seenLookup seen k = true ∨ k ∈ ids) ∧
  (∀ (id : Z) (story0 : Story) (e : Go.error) (w1 w2 : W),
     seenLookup seen id = false →
     fetchStoryDetails host id w1 = ((story0, Some e), w2) →
     fetchLoop host [id] [] seen w1 = (([], seen), w2)) ∧
  Go.len stories ≤ numStoriesFetch ∧ numStoriesFetch = 1 ∧
  (∀ (entries : list string) (w2 : W),
     ∃ (messages : list string) (w3 : W),
       storiesLoop host stories entries w2
       = (Go.Ok (foldl addEntry entries messages), w3)
       ∧ length messages = length ids) ∧
  (∀ (n : nat) (st : State),
     seenStoryIDs st = seen → Go.fits_in_memory (entries st) →
     NoDup (pollIDs host n st w) ∧
     Forall (λ id, seenLookup seen id = false) (pollIDs host n st w)).
Proof.
  intros Hfetch ids.
  destruct (fetchTopStories_ids host _ _ _ _ _ _ Hfetch)
    as (Hlen & Hcorr & Hiff).
  fold ids in Hlen, Hcorr, Hiff.
  pose proof (Forall2_length _ _ _ Hcorr) as Hsame.
  split; [|split; [exact Hiff|]].
  { apply Forall2_same_length_lookup. split; [exact Hsame|].
    intros i id story Hi Hs.
    destruct (Forall2_lookup_lr _ _ _ _ _ _ Hcorr Hi Hs) as (Hid & Hf).
    split; [exact Hid|]. split; [|exact Hf].
    apply Hiff. right. eapply list_elem_of_lookup_2, Hi. }
  split.
  { intros id story0 e w1 w2 Hid Hf.
    rewrite (fetchLoop_skip host _ _ _ _ _ _ _ _ Hid Hf) by reflexivity.
    reflexivity. }
  split; [unfold Go.len, numStoriesFetch; lia|]. split; [reflexivity|].
  split.
  { intros entries w2.
    destruct (storiesLoop_inserts host stories entries w2)
      as (messages & w3 & Hloop & Hmsgs).
    exists messages, w3. split; [exact Hloop | lia]. }
  intros n st <- Hfit. apply pollIDs_fresh, Hfit.
Qed.

End OncePerID.

(** ** The theorems at concrete inputs *)

(** The scenario of the specification: identifiers [[101, 102]], story 101
    is [{A, u1}], the model says ["High\nLooks urgent"]. *)
Example poll_urgent_story :
  (pollOnce Demo.host State_init Demo.worldUrgent).1
  = Go.Ok {| entries :=
               [ "[yellow]Priority: High[-]" +:+ String Go.LF
                 "[green]A[-]" +:+ String Go.LF
                 "u1" +:+ String Go.LF "Looks urgent" ];
             seenStoryIDs := {[ 101 := true ]};
             feedViewText :=
               "[white][yellow]Priority: High[-]" +:+ String Go.LF
               "[green]A[-]" +:+ String Go.LF
               "u1" +:+ String Go.LF "Looks urgent[-]" |}.
Proof. vm_compute. reflexivity. Qed.

Example placeholder_entry :
  formatInsight placeholderInsight
  = "[yellow]Priority: [-]" +:+ String Go.LF "[green][-]" +:+ String Go.LF
    "" +:+ String Go.LF "[red]Analysis not available[-]".
Proof. reflexivity. Qed.

Lemma addEntry_bounded_newest_first_witness :
  Go.len Demo.messages22 > maxEntries ∧
  Go.len (foldl addEntry [] Demo.messages22) = maxEntries ∧
  foldl addEntry [] Demo.messages22 = reverse (drop 2 Demo.messages22).
Proof.
  split; [reflexivity|].
  pose proof (addEntry_bounded_newest_first Demo.messages22) as H.
  cbv zeta in H. destruct H as (_ & _ & H & _).
  apply H. reflexivity.
Defined.

Lemma formatEntriesWithFade_segments_witness :
  1 ≤ Go.len ["a"; "b"; "c"] ∧ Go.fits_in_memory ["a"; "b"; "c"] ∧
  ∃ segments : list string,
    formatEntriesWithFade ["a"; "b"; "c"]
    = Go.Ok (Go.Join segments (String Go.LF (String Go.LF ""))) ∧
    Go.len segments = 3.
Proof.
  assert (1 ≤ Go.len ["a"; "b"; "c"]) as Hn by (vm_compute; discriminate).
  assert (Go.fits_in_memory ["a"; "b"; "c"]) as Hfit by reflexivity.
  split; [exact Hn|]. split; [exact Hfit|].
  destruct (formatEntriesWithFade_segments ["a"; "b"; "c"] Hn Hfit)
    as (segments & Hrender & Hlen & _).
  exists segments. split; [exact Hrender | exact Hlen].
Defined.

Lemma fadeIndex_never_last_witness :
  1 ≤ Go.len ["a"; "b"; "c"] ∧ Go.fits_in_memory ["a"; "b"; "c"] ∧
  ∃ (k : Z) (color : string),
    fadeIndex 2 (Go.len ["a"; "b"; "c"]) = Go.Ok k ∧ k ≤ 3 ∧
    Go.index fadeLevels k = Go.Ok color ∧ color ≠ "[black]".
Proof.
  assert (1 ≤ Go.len ["a"; "b"; "c"]) as Hn by (vm_compute; discriminate).
  assert (Go.fits_in_memory ["a"; "b"; "c"]) as Hfit by reflexivity.
  split; [exact Hn|]. split; [exact Hfit|].
  destruct (fadeIndex_never_last ["a"; "b"; "c"] 2 Hn Hfit)
    as (k & color & _ & Hk & _ & Hle & H3 & Hix & _ & Hne).
  - vm_compute; discriminate.
  - reflexivity.
  - exists k, color. rewrite H3 in Hle. auto.
Defined.

Lemma analyzeWithOllama_priority_summary_witness :
  2 ≤ Go.len (Go.Split ("High" +:+ String Go.LF "Looks urgent") Go.LF) ∧
  ∃ (priority : string) (rest : list string),
    Go.Split ("High" +:+ String Go.LF "Looks urgent") Go.LF = priority :: rest ∧
    analyzeWithOllama Demo.host Demo.storyA Demo.worldUrgent
    = (Go.Ok ({| Title := "A"; URL := "u1";
                 Summary := Go.Join rest " "; Priority := priority |}, None),
       {| Demo.replies := Demo.replies Demo.worldUrgent; Demo.runs := [] |}).
Proof.
  assert (2 ≤ Go.len (Go.Split ("High" +:+ String Go.LF "Looks urgent") Go.LF))
    as Hlen by (vm_compute; discriminate).
  split; [exact Hlen|].
  destruct (analyzeWithOllama_priority_summary Demo.host Demo.storyA
              ("High" +:+ String Go.LF "Looks urgent") Demo.worldUrgent
              {| Demo.replies := Demo.replies Demo.worldUrgent;
                 Demo.runs := [] |} eq_refl Hlen)
    as (priority & rest & Hsplit & _ & Hrun).
  exists priority, rest. split; [exact Hsplit | exact Hrun].
Defined.

Lemma analyzeWithOllama_invalid_format_witness :
  Go.len (Go.Split "High" Go.LF) < 2 ∧
  analyzeWithOllama Demo.host Demo.storyA Demo.worldOneLine
  = (Go.Ok ({| Title := "A"; URL := "u1";
               Summary := "[red]Invalid response format from Ollama[-]";
               Priority := "Low" |}, None),
     {| Demo.replies := []; Demo.runs := [] |}).
Proof.
  split; [reflexivity|].
  apply (analyzeWithOllama_invalid_format Demo.host Demo.storyA "High"
           Demo.worldOneLine {| Demo.replies := []; Demo.runs := [] |}
           eq_refl eq_refl).
Defined.

Lemma classifier_failure_placeholder_witness :
  analyzeWithOllama Demo.host Demo.storyA Demo.worldNoModel
  = (Go.Ok (HighValueInsight_zero,
            Some "failed to execute Ollama command: exit status 1"),
     {| Demo.replies := []; Demo.runs := [] |}) ∧
  storiesLoop Demo.host [Demo.storyA] ["older"] Demo.worldNoModel
  = (Go.Ok [ "[yellow]Priority: [-]" +:+ String Go.LF "[green][-]"
             +:+ String Go.LF "" +:+ String Go.LF
             "[red]Analysis not available[-]";
             "older" ],
     {| Demo.replies := []; Demo.runs := [] |}).
Proof.
  pose proof (classifier_failure_placeholder Demo.host Demo.storyA ""
                "exit status 1" Demo.worldNoModel
                {| Demo.replies := []; Demo.runs := [] |} eq_refl) as H.
  cbv zeta in H. destruct H as (Hfail & _ & _ & Hloop & _).
  split; [exact Hfail|].
  destruct (Hloop [] ["older"]) as (-> & _). reflexivity.
Defined.

Lemma failed_story_skipped_witness :
  seenLookup ∅ 101 = false ∧
  storyFetchFails Demo.host 101
    {| Demo.replies := [Go.Err "net/http: request canceled"];
       Demo.runs := [] |}
    "net/http: request canceled" {| Demo.replies := []; Demo.runs := [] |} ∧
  fetchTopStories Demo.host ∅ Demo.worldLostStory
  = ((([], None), ∅), {| Demo.replies := []; Demo.runs := [] |}).
Proof.
  split; [reflexivity|].
  split; [apply story_request_fails; reflexivity|].
  pose proof (failed_story_skipped Demo.host 101 [] ∅
                "net/http: request canceled"
                {| Demo.replies := [Go.Err "net/http: request canceled"];
                   Demo.runs := [] |}
                {| Demo.replies := []; Demo.runs := [] |}
                eq_refl
                (story_request_fails Demo.host 101
                   {| Demo.replies := [Go.Err "net/http: request canceled"];
                      Demo.runs := [] |}
                   "net/http: request canceled"
                   {| Demo.replies := []; Demo.runs := [] |} eq_refl))
    as (_ & _ & H).
  destruct (H Demo.worldLostStory
              {| Demo.replies := [Go.Err "net/http: request canceled"];
                 Demo.runs := [] |} "[101]" "[101]" eq_refl eq_refl eq_refl)
    as (stories & seen' & w2 & Hrest & Htop & Hnone & _).
  destruct (Hnone eq_refl) as (-> & ->).
  injection Hrest as <-. exact Htop.
Defined.

Lemma fetch_failure_error_entry_witness :
  listFetchFails Demo.host Demo.worldBadList
    "invalid character looking for beginning of value"
    {| Demo.replies := []; Demo.runs := [] |} ∧
  (pollOnce Demo.host State_init Demo.worldBadList).1
  = Go.Ok {| entries :=
               ["[red]Error: invalid character looking for beginning of value[-]"];
             seenStoryIDs := ∅;
             feedViewText :=
               "[white][red]Error: invalid character looking for beginning of value[-][-]" |}.
Proof.
  assert (listFetchFails Demo.host Demo.worldBadList
            "invalid character looking for beginning of value"
            {| Demo.replies := []; Demo.runs := [] |}) as Hfail.
  { apply (decode_fails Demo.host Demo.worldBadList _ "<html>" "<html>"
             {| Demo.replies := []; Demo.runs := [] |}
             {| Demo.replies := []; Demo.runs := [] |});
      reflexivity. }
  split; [exact Hfail|].
  pose proof (fetch_failure_error_entry Demo.host State_init _ _ _ Hfail) as H.
  cbv zeta in H. destruct H as (_ & _ & Hpoll & _).
  rewrite Hpoll. reflexivity.
Defined.

Lemma fetchTopStories_once_per_id_witness :
  fetchTopStories Demo.host ∅ Demo.worldUrgent
  = ((([Demo.storyA], None), {[ 101 := true ]}),
     {| Demo.replies := []; Demo.runs := Demo.runs Demo.worldUrgent |}) ∧
  Go.len [Demo.storyA] ≤ numStoriesFetch ∧
  NoDup (pollIDs Demo.host 3 State_init Demo.worldUrgent).
Proof.
  assert (fetchTopStories Demo.host ∅ Demo.worldUrgent
          = ((([Demo.storyA], None), {[ 101 := true ]}),
             {| Demo.replies := []; Demo.runs := Demo.runs Demo.worldUrgent |}))
    as Hfetch by (vm_compute; reflexivity).
  split; [exact Hfetch|].
  pose proof (fetchTopStories_once_per_id Demo.host _ _ _ _ _ _ Hfetch) as H.
  cbv zeta in H. destruct H as (_ & _ & _ & Hlen & _ & _ & Hrun).
  split; [exact Hlen|].
  apply (Hrun 3%nat State_init); reflexivity.
Defined.

(** ** More on strings and lines *)

Lemma string_app_assoc (s t u : string) : (s +:+ t) +:+ u = s +:+ t +:+ u.
Proof.
  induction s as [|c s IH]; [reflexivity|].
  change (String c ((s +:+ t) +:+ u) = String c (s +:+ t +:+ u)).
  f_equal. exact IH.
Qed.


Lemma ContainsByte_app (s t : string) (c : ascii) :
  Go.ContainsByte (s +:+ t) c = Go.ContainsByte s c || Go.ContainsByte t c.
Proof.
  induction s as [|c' s IH]; simpl; [reflexivity|].
  rewrite IH. apply orb_assoc.
Qed.

Lemma countByte_app (s t : string) (c : ascii) :
  countByte (s +:+ t) c = (countByte s c + countByte t c)%nat.
Proof.
  induction s as [|c' s IH]; simpl; [reflexivity|]. rewrite IH. lia.
Qed.

Lemma countByte_none (s : string) (c : ascii) :
  countByte s c = O ↔ Go.ContainsByte s c = false.
Proof.
  induction s as [|c' s IH]; simpl; [tauto|].
  destruct (Ascii.eqb c' c); simpl; [split; [lia | discriminate] | exact IH].
Qed.

(** Joining lines that hold no separator gives a text without one only if
    there is a single line; with a space between them, never a line feed. *)
Lemma Join_no_byte (lines : list string) (sp : string) (c : ascii) :
  Forall (λ line, Go.ContainsByte line c = false) lines →
  Go.ContainsByte sp c = false →
  Go.ContainsByte (Go.Join lines sp) c = false.
Proof.
  intros Hlines Hsp. induction Hlines as [|line lines Hline Hrest IH];
    [reflexivity|].
  destruct lines as [|line' lines]; [exact Hline|].
  rewrite Join_cons_cons, !ContainsByte_app, Hline, Hsp, IH. reflexivity.
Qed.

Lemma Join_snoc (line : string) (lines : list string) (last sp : string) :
  Go.Join ((line :: lines) ++ [last]) sp
  = Go.Join (line :: lines) sp +:+ sp +:+ last.
Proof.
  revert line. induction lines as [|line' lines IH]; intros line.
  - reflexivity.
  - change (Go.Join (line :: (line' :: lines) ++ [last]) sp
            = Go.Join (line :: line' :: lines) sp +:+ sp +:+ last).
    rewrite (Join_cons_cons line line' lines).
    change ((line' :: lines) ++ [last]) with ((line' :: lines) ++ [last]).
    destruct ((line' :: lines) ++ [last]) as [|x xs] eqn:Happ;
      [discriminate|].
    rewrite Join_cons_cons, <- Happ, IH, !string_app_assoc. reflexivity.
Qed.

(** The pieces of [strings.Split] are one more than the separators. *)
Lemma Split_len (s : string) (sep : ascii) :
  Go.len (Go.Split s sep) = 1 + Z.of_nat (countByte s sep).
Proof.
  induction s as [|c s IH]; [reflexivity|].
  rewrite Split_String. simpl countByte.
  destruct (Ascii.eqb c sep).
  - rewrite len_cons, IH. lia.
  - destruct (Split_cons sep s) as (piece & pieces & Hs).
    rewrite Hs in *. rewrite len_cons in *. simpl. lia.
Qed.

Lemma Split_lineCount (text : string) :
  Go.len (Go.Split text Go.LF) = lineCount text.
Proof. apply Split_len. Qed.

(** Without its first piece, a text is the text after its first line
    feed. *)
Lemma Join_tail_Split (text : string) :
  Go.Join (drop 1 (Go.Split text Go.LF)) (String Go.LF "")
  = afterFirstLine text.
Proof.
  induction text as [|c text IH]; [reflexivity|].
  rewrite Split_String. simpl afterFirstLine.
  destruct (Ascii.eqb c Go.LF).
  - simpl drop. apply Join_Split.
  - destruct (Split_cons Go.LF text) as (piece & pieces & Hs).
    rewrite Hs in *. exact IH.
Qed.

Lemma lineCount_app_LF (s t : string) :
  lineCount (s +:+ String Go.LF t) = lineCount s + lineCount t.
Proof.
  unfold lineCount. rewrite countByte_app.
  change (countByte (String Go.LF t) Go.LF) with (S (countByte t Go.LF)).
  lia.
Qed.

Lemma lineCount_afterFirstLine (text : string) :
  2 ≤ lineCount text → lineCount (afterFirstLine text) = lineCount text - 1.
Proof.
  unfold lineCount. induction text as [|c text IH]; simpl; [lia|].
  destruct (Ascii.eqb c Go.LF); simpl; [lia|]. exact IH.
Qed.

(** ** The current program: the loop as a whole *)

Lemma len_le_fits (entries : list string) :
  Go.len entries ≤ maxEntries → Go.fits_in_memory entries.
Proof.
  unfold Go.fits_in_memory, Go.stringHeaderSize, Go.intSize, maxEntries. lia.
Qed.

Lemma foldl_addEntry_len (messages entries : list string) :
  Go.len entries ≤ maxEntries →
  Go.len (foldl addEntry entries messages) ≤ maxEntries.
Proof.
  revert entries. induction messages as [|m messages IH]; intros entries Hlen;
    [exact Hlen|].
  simpl. apply IH, addEntry_len.
Qed.

Section WholeLoop.
Context {W Response : Type} (host : Host W Response).

Lemma pollOnce_bounded (st : State) (w : W) :
  Go.len (entries st) ≤ maxEntries →
  ∃ st' w', pollOnce host st w = (Go.Ok st', w')
            ∧ Go.len (entries st') ≤ maxEntries
            ∧ feedViewText st' = render (entries st').
Proof.
  intros Hlen.
  destruct (fetchTopStories host (seenStoryIDs st) w)
    as [[[stories err] seen] w1] eqn:Hfetch.
  destruct err as [err|].
  - eexists _, _. split; [|split].
    + eapply pollOnce_entries; [exact Hfetch | reflexivity | apply addEntry_fits].
    + apply addEntry_len.
    + reflexivity.
  - destruct (storiesLoop_inserts host stories (entries st) w1)
      as (messages & w2 & Hloop & _).
    eexists _, _. split; [|split].
    + eapply pollOnce_entries; [exact Hfetch | exact Hloop |].
      apply len_le_fits, foldl_addEntry_len, Hlen.
    + apply foldl_addEntry_len, Hlen.
    + reflexivity.
Qed.

Lemma poll_bounded (n : nat) (st : State) (w : W) :
  Go.len (entries st) ≤ maxEntries →
  feedViewText st = render (entries st) →
  ∃ st' w', poll host n st w = (Go.Ok st', w')
            ∧ Go.len (entries st') ≤ maxEntries
            ∧ feedViewText st' = render (entries st').
Proof.
  revert st w. induction n as [|n IH]; intros st w Hlen Htext.
  - exists st, w. auto.
  - destruct (pollOnce_bounded st w Hlen) as (st1 & w1 & Hone & Hlen1 & Htext1).
    simpl. rewrite Hone. apply IH; assumption.
Qed.

(** X1. Started with the empty buffer, the loop completes any number of
    turns without a run-time panic, whatever the network and the command
    answer; after each of them the buffer holds at most [maxEntries]
    entries and the text of the view is the rendering of the buffer. *)
Theorem poll_from_start_bounded (n : nat) (w : W) :
  ∃ (st : State) (w' : W),
    poll host n State_init w = (Go.Ok st, w') ∧
    Go.len (entries st) ≤ maxEntries ∧
    formatEntriesWithFade (entries st) = Go.Ok (feedViewText st).
Proof.
  destruct (poll_bounded n State_init w) as (st & w' & Hpoll & Hlen & Htext);
    [unfold Go.len, maxEntries; simpl; lia | reflexivity |].
  exists st, w'. split; [exact Hpoll|]. split; [exact Hlen|].
  rewrite Htext. apply formatEntriesWithFade_render, len_le_fits, Hlen.
Qed.

Lemma poll_seen (n : nat) (st : State) (w : W) :
  Go.fits_in_memory (entries st) →
  ∃ st' w', poll host n st w = (Go.Ok st', w') ∧
    ∀ k : Z, seenLookup (seenStoryIDs st') k = true
             ↔ seenLookup (seenStoryIDs st) k = true
               ∨ k ∈ pollIDs host n st w.
Proof.
  revert st w. induction n as [|n IH]; intros st w Hfit.
  - exists st, w. split; [reflexivity|]. intros k. split; [auto|].
    intros [H|H]; [exact H | inversion H].
  - destruct (pollOnce_ok host st w Hfit) as (st1 & w1 & Hone & Hfit1 & Hseen1).
    destruct (fetchTopStories host (seenStoryIDs st) w)
      as [[[stories err] seen] w2] eqn:Hfetch.
    simpl in Hseen1.
    destruct (fetchTopStories_ids host _ _ _ _ _ _ Hfetch) as (_ & _ & Hiff).
    destruct (IH st1 w1 Hfit1) as (st' & w' & Hpoll & Hiff').
    exists st', w'. simpl. rewrite Hone. split; [exact Hpoll|].
    intros k. rewrite Hiff', Hseen1, Hiff, elem_of_app. tauto.
Qed.

(** X2. Started with the empty buffer and the empty map, after any number
    of turns the identifiers marked in [seenStoryIDs] are exactly those of
    the stories that [fetchTopStories] has returned so far. *)
Theorem seen_exactly_the_returned (n : nat) (w : W) :
  ∃ (st : State) (w' : W),
    poll host n State_init w = (Go.Ok st, w') ∧
    ∀ k : Z, seenLookup (seenStoryIDs st) k = true
             ↔ k ∈ pollIDs host n State_init w.
Proof.
  destruct (poll_seen n State_init w) as (st & w' & Hpoll & Hiff);
    [reflexivity|].
  exists st, w'. split; [exact Hpoll|].
  intros k. rewrite Hiff. split; [|auto].
  intros [H|H]; [discriminate H | exact H].
Qed.

Lemma fetchLoop_all_seen (storyIDs : list Z) (stories : list Story)
    (seen : gmap Z bool) (w : W) :
  Forall (λ id, seenLookup seen id = true) storyIDs →
  fetchLoop host storyIDs stories seen w = ((stories, seen), w).
Proof.
  induction 1 as [|id storyIDs Hid _ IH]; [reflexivity|].
  simpl. rewrite Hid. simpl.
  destruct (Go.len stories >=? numStoriesFetch); [reflexivity | exact IH].
Qed.

(** X3. When every identifier of the list is already marked seen,
    [fetchTopStories] requests the details of none of them: after the list
    is fetched the world is only changed by closing the body; it returns no
    story and a nil error, leaves the map as it is, and the turn of the loop
    leaves the buffer as it is. *)
Theorem seen_stories_not_requested (st : State) (storyIDs : list Z)
    (resp : Response) (body : string) (w0 w1 w2 : W) :
  http_Get host topstoriesURL w0 = (Go.Got resp, w1) →
  ioutil_ReadAll host resp w1 = (Go.Got body, w2) →
  json_Unmarshal_ints host body = Go.Got storyIDs →
  Forall (λ id, seenLookup (seenStoryIDs st) id = true) storyIDs →
  Go.fits_in_memory (entries st) →
  fetchTopStories host (seenStoryIDs st) w0
  = ((([], None), seenStoryIDs st), Body_Close host resp w2) ∧
  pollOnce host st w0
  = (Go.Ok {| entries := entries st; seenStoryIDs := seenStoryIDs st;
              feedViewText := render (entries st) |},
     time_Sleep host pollInterval (Body_Close host resp w2)).
Proof.
  intros Hget Hread Hdec Hseen Hfit.
  assert (fetchTopStories host (seenStoryIDs st) w0
          = ((([], None), seenStoryIDs st), Body_Close host resp w2)) as Htop.
  { rewrite (fetchTopStories_listed host _ _ _ _ _ _ _ Hget Hread Hdec).
    rewrite (fetchLoop_all_seen _ _ _ _ Hseen). reflexivity. }
  split; [exact Htop|].
  eapply pollOnce_entries; [exact Htop | reflexivity | exact Hfit].
Qed.

(** X4. [fetchTopStories] returns the first identifier of the list that
    is not seen and whose details are fetched: the identifiers before it,
    seen or failing, are passed over and leave the map as it is; the loop
    returns that one story, marks that one identifier, and does nothing with
    the identifiers after it, whatever they are.  When the whole list is
    passed over, the loop returns no story and the map as it was. *)
Theorem first_new_story_ends_the_loop (before : list Z)
    (seen : gmap Z bool) (w w1 : W) :
  passesOver host seen before w w1 →
  fetchLoop host before [] seen w = (([], seen), w1) ∧
  (∀ (id : Z) (after : list Z) (story : Story) (w' : W),
     seenLookup seen id = false →
     fetchStoryDetails host id w1 = ((story, None), w') →
     fetchLoop host (before ++ id :: after) [] seen w
     = (([story], <[id := true]> seen), w')).
Proof.
  intros Hbefore.
  induction Hbefore as [w | id' ids w w1 Hid' _ IH
                          | id' ids story' err w w0 w1 Hid' Hfail _ IH].
  - split; [reflexivity|]. intros id after story w' Hid Hfetch.
    simpl. rewrite Hid, Hfetch. reflexivity.
  - destruct IH as (IH1 & IH2). split.
    + simpl. rewrite Hid'. simpl. exact IH1.
    + intros id after story w' Hid Hfetch.
      simpl. rewrite Hid'. simpl. apply IH2; assumption.
  - destruct IH as (IH1 & IH2). split.
    + simpl. rewrite Hid', Hfail. simpl. exact IH1.
    + intros id after story w' Hid Hfetch.
      simpl. rewrite Hid', Hfail. simpl. apply IH2; assumption.
Qed.

End WholeLoop.

(** ** The current program: insights and their rendering *)

Section Insights.
Context {W Response : Type} (host : Host W Response).

(** X5. A turn of the loop in which [fetchTopStories] returns one story and
    the command answers in two lines or more puts in front of the buffer the
    entry made of the first line as priority, the story's title and URL, and
    the other lines joined by spaces as summary; the turn completes. *)
Theorem poll_inserts_insight (st : State) (story : Story)
    (seen : gmap Z bool) (output priority : string) (rest : list string)
    (w0 w w' : W) :
  fetchTopStories host (seenStoryIDs st) w0 = ((([story], None), seen), w) →
  exec_Run host "ollama" ["run"; "llama3.2"; prompt story] w
  = ((output, None), w') →
  Go.Split output Go.LF = priority :: rest → rest ≠ [] →
  let message :=
    "[yellow]Priority: " +:+ priority +:+ "[-]" +:+ String Go.LF
    "[green]" +:+ Story_Title story +:+ "[-]" +:+ String Go.LF
    "" +:+ Story_URL story +:+ String Go.LF "" +:+ Go.Join rest " " in
  addEntry (entries st) message !! 0%nat = Some message ∧
  pollOnce host st w0
  = (Go.Ok {| entries := addEntry (entries st) message;
              seenStoryIDs := seen;
              feedViewText := render (addEntry (entries st) message) |},
     time_Sleep host pollInterval w').
Proof.
  intros Hfetch Hrun Hsplit Hrest message. split.
  - rewrite addEntry_take. reflexivity.
  - eapply pollOnce_entries; [exact Hfetch | | apply addEntry_fits].
    simpl. rewrite (analyzeWithOllama_ran host _ _ _ _ Hrun).
    rewrite (parseOutput_lines story output priority rest Hsplit Hrest).
    reflexivity.
Qed.

(** X6. [analyzeWithOllama] never panics: the first line and the rest of
    the lines are only taken when there are two lines.  It returns an error
    exactly when running the command did, and then the zero insight and the
    error of the command behind a fixed prefix; without error the insight
    carries the story's title and URL. *)
Theorem analyzeWithOllama_never_panics (story : Story) (w : W) :
  let ran := exec_Run host "ollama" ["run"; "llama3.2"; prompt story] w in
  ∃ (insight : HighValueInsight) (err : option Go.error),
    analyzeWithOllama host story w = (Go.Ok (insight, err), ran.2) ∧
    (err = None ↔ ran.1.2 = None) ∧
    (err = None →
       Title insight = Story_Title story ∧ URL insight = Story_URL story) ∧
    (∀ e : Go.error, ran.1.2 = Some e →
       insight = HighValueInsight_zero ∧
       err = Some ("failed to execute Ollama command: " +:+ e)).
Proof.
  intros ran. unfold analyzeWithOllama. fold ran.
  destruct ran as [[out [e|]] w'] eqn:Hran; simpl.
  - eexists _, _. split; [reflexivity|].
    split; [split; discriminate|]. split; [discriminate|].
    intros e' [= <-]. auto.
  - destruct (Z.lt_ge_cases (Go.len (Go.Split out Go.LF)) 2) as [Hlt|Hge].
    + rewrite (parseOutput_short story out Hlt).
      eexists _, _. split; [reflexivity|]. repeat split; discriminate.
    + destruct (Split_cons Go.LF out) as (priority & rest & Hsplit).
      rewrite (parseOutput_lines story out priority rest Hsplit).
      * eexists _, _. split; [reflexivity|]. repeat split; discriminate.
      * intros ->. rewrite Hsplit in Hge. unfold Go.len in Hge.
        simpl in Hge. lia.
Qed.

Lemma parseOutput_single_line (story : Story) (output : string)
    (insight : HighValueInsight) (err : option Go.error) :
  parseOutput story output = Go.Ok (insight, err) →
  Title insight = Story_Title story ∧ URL insight = Story_URL story ∧
  Go.ContainsByte (Priority insight) Go.LF = false ∧
  Go.ContainsByte (Summary insight) Go.LF = false.
Proof.
  destruct (Z.lt_ge_cases (Go.len (Go.Split output Go.LF)) 2) as [Hlt|Hge].
  - rewrite (parseOutput_short story output Hlt). intros [= <- <-].
    repeat split; reflexivity.
  - destruct (Split_cons Go.LF output) as (priority & rest & Hsplit).
    pose proof (Split_pieces Go.LF output) as Hpieces.
    rewrite Hsplit in Hpieces. inversion Hpieces as [|? ? Hp Hr]; subst.
    rewrite (parseOutput_lines story output priority rest Hsplit).
    + intros [= <- <-]. simpl. repeat split; [exact Hp|].
      apply Join_no_byte; [exact Hr | reflexivity].
    + intros ->. rewrite Hsplit in Hge. unfold Go.len in Hge.
      simpl in Hge. lia.
Qed.

(** X7. In an insight that [analyzeWithOllama] returns without error, the
    priority and the summary hold no line feed; so when the title and the
    URL of the story hold none either, the entry that [main] formats from it
    is exactly four lines: priority, title, URL, summary. *)
Theorem insight_entry_four_lines (story : Story) (insight : HighValueInsight)
    (w w' : W) :
  analyzeWithOllama host story w = (Go.Ok (insight, None), w') →
  Go.ContainsByte (Priority insight) Go.LF = false ∧
  Go.ContainsByte (Summary insight) Go.LF = false ∧
  (Go.ContainsByte (Story_Title story) Go.LF = false →
   Go.ContainsByte (Story_URL story) Go.LF = false →
   Go.Split (formatInsight insight) Go.LF
   = [ "[yellow]Priority: " +:+ Priority insight +:+ "[-]";
       "[green]" +:+ Story_Title story +:+ "[-]";
       Story_URL story;
       Summary insight ]).
Proof.
  unfold analyzeWithOllama.
  destruct (exec_Run host _ _ w) as [[out [e|]] w1]; [discriminate|].
  intros [= Hparse _].
  destruct (parseOutput_single_line _ _ _ _ Hparse) as (Ht & Hu & Hp & Hs).
  split; [exact Hp|]. split; [exact Hs|]. intros Htitle Hurl.
  rewrite <- Ht, <- Hu in *.
  assert (formatInsight insight
          = Go.Join [ "[yellow]Priority: " +:+ Priority insight +:+ "[-]";
                      "[green]" +:+ Title insight +:+ "[-]";
                      URL insight; Summary insight ] (String Go.LF "")) as ->.
  { unfold formatInsight. simpl Go.Join.
    rewrite !string_app_assoc. reflexivity. }
  apply Split_Join. repeat constructor; try assumption.
  - rewrite !ContainsByte_app, Hp. reflexivity.
  - rewrite !ContainsByte_app, Htitle. reflexivity.
Qed.

End Insights.


(** X9. With four entries or more, the fade is complete and gapless: the
    oldest entry gets index 3, ["[darkgray]"]; each of the indices 0 to 3 is
    the index of some entry; and from one entry to the next older one the
    index grows by at most one. *)
Theorem fade_complete_from_four (entries : list string) :
  4 ≤ Go.len entries → Go.fits_in_memory entries →
  let n := Go.len entries in
  fadeIndex (n - 1) n = Go.Ok 3 ∧
  Go.index fadeLevels 3 = Go.Ok "[darkgray]" ∧
  (∀ k : Z, 0 ≤ k → k ≤ 3 →
     ∃ i : Z, 0 ≤ i ∧ i < n ∧ fadeIndex i n = Go.Ok k) ∧
  (∀ (i a b : Z), 0 ≤ i → i + 1 < n →
     fadeIndex i n = Go.Ok a → fadeIndex (i + 1) n = Go.Ok b →
     a ≤ b ∧ b ≤ a + 1).
Proof.
  intros Hn Hfit n. fold n in Hn. unfold Go.fits_in_memory in Hfit. fold n in Hfit.
  assert (∀ i k : Z, 0 ≤ i → i < n → k * n ≤ i * 4 → i * 4 < (k + 1) * n →
            fadeIndex i n = Go.Ok k) as Hbucket.
  { intros i k Hi0 Hi Hlo Hhi. rewrite fadeIndex_fadeBucket by (lia || exact Hfit).
    f_equal. unfold fadeBucket. change (Go.len fadeLevels - 1) with 4.
    symmetry. apply (Z.div_unique_pos _ _ k (i * 4 - k * n)); lia. }
  split; [apply Hbucket; lia|]. split; [reflexivity|]. split.
  - intros k Hk0 Hk3. exists ((k * n + 3) `div` 4).
    pose proof (Z.div_mod (k * n + 3) 4 ltac:(lia)) as Hdm.
    pose proof (Z.mod_pos_bound (k * n + 3) 4 ltac:(lia)) as Hmod.
    assert (0 ≤ (k * n + 3) `div` 4) by (apply Z.div_pos; nia).
    split; [assumption|]. split; [nia|].
    apply Hbucket; nia.
  - intros i a b Hi0 Hi Ha Hb.
    rewrite fadeIndex_fadeBucket in Ha, Hb by (lia || exact Hfit).
    injection Ha as <-. injection Hb as <-.
    split; [apply fadeBucket_mono; lia|].
    unfold fadeBucket. change (Go.len fadeLevels - 1) with 4.
    replace ((i * 4) `div` n + 1) with ((i * 4 + 1 * n) `div` n)
      by (rewrite Z.div_add by lia; reflexivity).
    apply Z.div_le_mono; lia.
Qed.

(** ** The earlier revisions: [appendMessage] *)

(** The lines that [appendMessage] keeps of the current text, for a limit
    of two lines or more. *)
Lemma appendMessage_kept (limit : Z) (text : string) :
  2 ≤ limit →
  ∃ kept : list string,
    (if Go.len (Go.Split text Go.LF) >=? limit
     then Go.sliceFrom (Go.Split text Go.LF) 1
     else Go.Ok (Go.Split text Go.LF)) = Go.Ok kept ∧
    kept ≠ [] ∧
    Go.Join kept (String Go.LF "")
    = if lineCount text >=? limit then afterFirstLine text else text.
Proof.
  intros Hlimit. rewrite Split_lineCount.
  pose proof (Split_lineCount text) as Hlen.
  destruct (lineCount text >=? limit) eqn:Hge.
  - rewrite Z.geb_leb in Hge. apply Z.leb_le in Hge.
    exists (drop 1 (Go.Split text Go.LF)). split; [|split].
    + unfold Go.sliceFrom. rewrite Hlen.
      replace (1 <=? lineCount text) with true
        by (symmetry; apply Z.leb_le; lia).
      reflexivity.
    + destruct (Go.Split text Go.LF) as [|l0 [|l1 ls]]; try discriminate;
        unfold Go.len in Hlen; simpl in Hlen; lia.
    + apply Join_tail_Split.
  - exists (Go.Split text Go.LF). split; [reflexivity|]. split.
    + destruct (Split_cons Go.LF text) as (l0 & ls & ->). discriminate.
    + apply Join_Split.
Qed.

Lemma appendMessage_joined (kept : list string) (message : string) :
  kept ≠ [] →
  Go.Join (kept ++ [message]) (String Go.LF "")
  = Go.Join kept (String Go.LF "") +:+ String Go.LF message.
Proof.
  destruct kept as [|line lines]; [contradiction|]. intros _.
  rewrite Join_snoc. reflexivity.
Qed.

Lemma lineCount_appended (limit : Z) (text message : string) :
  2 ≤ limit →
  lineCount ((if lineCount text >=? limit then afterFirstLine text else text)
             +:+ String Go.LF message)
  = (if lineCount text >=? limit then lineCount text - 1 else lineCount text)
    + lineCount message.
Proof.
  intros Hlimit. rewrite lineCount_app_LF.
  destruct (lineCount text >=? limit) eqn:Hge; [|reflexivity].
  rewrite Z.geb_leb in Hge. apply Z.leb_le in Hge.
  rewrite lineCount_afterFirstLine by lia. reflexivity.
Qed.

Lemma lineCount_pos (text : string) : 1 ≤ lineCount text.
Proof. unfold lineCount. lia. Qed.

Lemma lineCount_one (text : string) :
  Go.ContainsByte text Go.LF = false → lineCount text = 1.
Proof.
  intros H. apply countByte_none in H. unfold lineCount. rewrite H. reflexivity.
Qed.

(** The text that [appendMessage] hands on, for a limit of two lines or
    more. *)
Lemma appendMessage_with {A : Type} (limit : Z) (k : string → A)
    (text message : string) :
  2 ≤ limit →
  (lines ← (if Go.len (Go.Split text Go.LF) >=? limit
            then Go.sliceFrom (Go.Split text Go.LF) 1
            else Go.Ok (Go.Split text Go.LF));
   Go.Ok (k (Go.Join (lines ++ [message]) (String Go.LF ""))))
  = Go.Ok (k ((if lineCount text >=? limit then afterFirstLine text else text)
              +:+ String Go.LF message)).
Proof.
  intros Hlimit.
  destruct (appendMessage_kept limit text Hlimit) as (kept & -> & Hkept & Hjoin).
  simpl. rewrite (appendMessage_joined _ _ Hkept), Hjoin. reflexivity.
Qed.

Lemma lineCount_formatInsight (insight : HighValueInsight) :
  4 ≤ lineCount (formatInsight insight).
Proof.
  unfold formatInsight, lineCount. rewrite !countByte_app.
  change (countByte "[yellow]Priority: " Go.LF) with O.
  change (countByte "[-]" Go.LF) with O.
  change (countByte (String Go.LF "[green]") Go.LF) with 1%nat.
  change (countByte (String Go.LF "") Go.LF) with 1%nat.
  lia.
Qed.

Section AppendMessage.
Context {V : Type} (view : TextView V).

(** X10. [appendMessage] of the revision before the current one never
    panics, and gives the view this text: when the current text has fewer
    than 20 lines, the current text, a line feed and the message (so the
    first message put in an empty view comes after an empty line); when it
    has 20 lines or more, the same without the first line of the current
    text.  On a view that gives back the text it was given, the number of
    lines changes by the lines of the message, less one when the limit was
    reached, so one-line messages keep a view of at most 20 lines within 20
    lines. *)
Theorem earlier_appendMessage_text (v : V) (message : string) :
  let text := GetText view false v in
  let text' := (if lineCount text >=? 20 then afterFirstLine text else text)
               +:+ String Go.LF message in
  Earlier.appendMessage view v message = Go.Ok (SetText view text' v) ∧
  (text = "" → text' = String Go.LF message) ∧
  ((∀ (t : string) (v0 : V), GetText view false (SetText view t v0) = t) →
   lineCount (GetText view false (SetText view text' v))
   = (if lineCount text >=? 20 then lineCount text - 1 else lineCount text)
     + lineCount message ∧
   (Go.ContainsByte message Go.LF = false → lineCount text ≤ 20 →
    lineCount (GetText view false (SetText view text' v)) ≤ 20)).
Proof.
  intros text text'. split; [|split].
  - unfold Earlier.appendMessage. fold text.
    apply (appendMessage_with 20 (λ t, SetText view t v)). lia.
  - intros Hempty. unfold text'. rewrite Hempty. reflexivity.
  - intros Hcell. rewrite Hcell.
    assert (lineCount text'
            = (if lineCount text >=? 20 then lineCount text - 1
               else lineCount text) + lineCount message) as Hcount
      by (apply lineCount_appended; lia).
    split; [exact Hcount|].
    intros Hone Hbefore. rewrite Hcount, (lineCount_one _ Hone).
    destruct (lineCount text >=? 20) eqn:Hge; [lia|].
    rewrite Z.geb_leb in Hge. apply Z.leb_gt in Hge. lia.
Qed.

(** X11. The entries that [main] of that revision formats from an insight
    have four lines or more, so on a view that gives back the text it was
    given, each [appendMessage] of such an entry at the limit of 20 lines
    leaves the view at least three lines longer than it was: the view is
    not kept within 20 lines. *)
Theorem earlier_insight_entries_outgrow_limit (v : V)
    (insight : HighValueInsight) :
  (∀ (t : string) (v0 : V), GetText view false (SetText view t v0) = t) →
  20 ≤ lineCount (GetText view false v) →
  ∃ v' : V,
    Earlier.appendMessage view v (formatInsight insight) = Go.Ok v' ∧
    lineCount (GetText view false v) + 3 ≤ lineCount (GetText view false v').
Proof.
  intros Hcell Hfull. eexists. split.
  - unfold Earlier.appendMessage.
    apply (appendMessage_with 20 (λ t, SetText view t v)). lia.
  - simpl. rewrite Hcell, lineCount_appended by lia.
    pose proof (lineCount_formatInsight insight).
    destruct (lineCount (GetText view false v) >=? 20) eqn:Hge; [lia|].
    rewrite Z.geb_leb in Hge. apply Z.leb_gt in Hge. lia.
Qed.

(** X12. [appendMessage] of [main.go.bak] does the same with a limit of 10
    lines (its comment says 20): it never panics; below 10 lines it adds a
    line feed and the message, from 10 lines on it first drops the first
    line.  On a view that gives back the text it was given, the entry that
    [main] formats from a story whose title and URL hold no line feed keeps
    a view of at most 10 lines within 10 lines. *)
Theorem bak_appendMessage_text (v : V) (message : string) :
  let text := GetText view false v in
  let text' := (if lineCount text >=? 10 then afterFirstLine text else text)
               +:+ String Go.LF message in
  Bak.appendMessage view v message = Go.Ok (SetText view text' v) ∧
  ((∀ (t : string) (v0 : V), GetText view false (SetText view t v0) = t) →
   lineCount (GetText view false (SetText view text' v))
   = (if lineCount text >=? 10 then lineCount text - 1 else lineCount text)
     + lineCount message ∧
   (∀ story : Story,
      message = Bak.formatStory story →
      Go.ContainsByte (Story_Title story) Go.LF = false →
      Go.ContainsByte (Story_URL story) Go.LF = false →
      lineCount text ≤ 10 →
      lineCount (GetText view false (SetText view text' v)) ≤ 10)).
Proof.
  intros text text'. split.
  - unfold Bak.appendMessage. fold text.
    apply (appendMessage_with 10 (λ t, SetText view t v)). lia.
  - intros Hcell. rewrite Hcell.
    assert (lineCount text'
            = (if lineCount text >=? 10 then lineCount text - 1
               else lineCount text) + lineCount message) as Hcount
      by (apply lineCount_appended; lia).
    split; [exact Hcount|].
    intros story -> Htitle Hurl Hbefore. rewrite Hcount.
    rewrite (lineCount_one (Bak.formatStory story)).
    + destruct (lineCount text >=? 10) eqn:Hge; [lia|].
      rewrite Z.geb_leb in Hge. apply Z.leb_gt in Hge. lia.
    + unfold Bak.formatStory. rewrite !ContainsByte_app, Htitle, Hurl.
      reflexivity.
Qed.

End AppendMessage.

(** ** The earlier revisions: [fetchTopStories] *)

Section EarlierFetch.
Context {W Response : Type} (host : Host W Response).

Lemma fetchEach_length (storyIDs : list Z) (stories : list Story) (w : W) :
  (length (fetchEach host storyIDs stories w).1
   ≤ length stories + length storyIDs)%nat.
Proof.
  revert stories w. induction storyIDs as [|id storyIDs IH]; intros stories w;
    simpl; [lia|].
  destruct (fetchStoryDetails host id w) as [[story [e|]] w1].
  - specialize (IH stories w1). lia.
  - specialize (IH (stories ++ [story]) w1). rewrite length_app in IH.
    simpl in IH. lia.
Qed.

(** With fuel for the turns that are left, the loop ends, without panic,
    and has fetched the identifiers from index [k] among the first ten. *)
Lemma earlier_fetchLoop_fetchEach (fuel k : nat) (storyIDs : list Z)
    (stories : list Story) (w : W) :
  (10 - k ≤ fuel)%nat →
  Earlier.fetchLoop host fuel (Z.of_nat k) storyIDs stories w
  = Some (Go.Ok (fetchEach host (drop k (take 10 storyIDs)) stories w).1,
          (fetchEach host (drop k (take 10 storyIDs)) stories w).2).
Proof.
  revert k stories w. induction fuel as [|fuel IH]; intros k stories w Hfuel.
  - assert ((Z.of_nat k <? 10) = false) as Hk by (apply Z.ltb_ge; lia).
    simpl. rewrite Hk. simpl.
    rewrite drop_ge by (rewrite length_take; lia). reflexivity.
  - simpl.
    destruct ((Z.of_nat k <? 10) && (Z.of_nat k <? Go.len storyIDs)) eqn:Hcond.
    + apply andb_true_iff in Hcond as [Hk Hlen].
      apply Z.ltb_lt in Hk. apply Z.ltb_lt in Hlen. unfold Go.len in Hlen.
      destruct (lookup_lt_is_Some_2 storyIDs k ltac:(lia)) as [id Hid].
      rewrite (index_lookup _ _ _ Hid).
      rewrite (drop_S (take 10 storyIDs) id k)
        by (rewrite lookup_take_lt by lia; exact Hid).
      simpl fetchEach.
      destruct (fetchStoryDetails host id w) as [[story err] w1].
      assert (Go.add (Z.of_nat k) 1 = Z.of_nat (S k)) as ->.
      { unfold Go.add. rewrite wrap_small; [lia|].
        unfold Go.minInt, Go.maxInt, Go.intSize. lia. }
      apply IH. lia.
    + rewrite drop_ge; [reflexivity|].
      rewrite length_take. apply andb_false_iff in Hcond as [Hk|Hlen].
      * apply Z.ltb_ge in Hk. lia.
      * apply Z.ltb_ge in Hlen. unfold Go.len in Hlen. lia.
Qed.

(** X13. Once the list of identifiers is fetched, [fetchTopStories] of the
    earlier revisions ends within ten turns of its loop, without panic and
    with a nil error; it requests the details of the first ten identifiers
    only, in order, and returns the stories of the requests that succeed:
    at most ten, and at most as many as there are identifiers. *)
Theorem earlier_fetchTopStories_first_ten (storyIDs : list Z)
    (resp : Response) (body : string) (w0 w1 w2 : W) (fuel : nat) :
  http_Get host topstoriesURL w0 = (Go.Got resp, w1) →
  ioutil_ReadAll host resp w1 = (Go.Got body, w2) →
  json_Unmarshal_ints host body = Go.Got storyIDs →
  (10 ≤ fuel)%nat →
  let fetched := fetchEach host (take 10 storyIDs) [] w2 in
  Earlier.fetchTopStories host fuel w0
  = Some (Go.Ok (fetched.1, None), Body_Close host resp fetched.2) ∧
  Go.len fetched.1 ≤ 10 ∧
  Go.len fetched.1 ≤ Go.len storyIDs.
Proof.
  intros Hget Hread Hdec Hfuel fetched. split.
  - unfold Earlier.fetchTopStories. rewrite Hget, Hread, Hdec.
    change 0 with (Z.of_nat 0).
    rewrite earlier_fetchLoop_fetchEach by lia. reflexivity.
  - pose proof (fetchEach_length (take 10 storyIDs) [] w2) as Hlen.
    rewrite length_take in Hlen. change (length (@nil Story)) with O in Hlen.
    unfold Go.len, fetched. lia.
Qed.

End EarlierFetch.

(** ** The address of a story *)

Lemma string_app_inj_r (s t u : string) : s +:+ u = t +:+ u → s = t.
Proof.
  assert (∀ a b : string,
            String.length (a +:+ b) = (String.length a + String.length b)%nat)
    as Hlen.
  { intros a b. induction a as [|c a IH]; simpl; [reflexivity|].
    rewrite IH. reflexivity. }
  revert t. induction s as [|c s IH]; intros [|c' t] H.
  - reflexivity.
  - apply (f_equal String.length) in H. rewrite !Hlen in H. simpl in H. lia.
  - apply (f_equal String.length) in H. rewrite !Hlen in H. simpl in H. lia.
  - simpl in H. injection H as -> H. f_equal. apply IH, H.
Qed.

Lemma itoa_inj (a b : Z) : Go.itoa a = Go.itoa b → a = b.
Proof.
  unfold Go.itoa. intros H.
  assert (∀ z : Z, NilZero.int_of_string (NilZero.string_of_int (Z.to_int z))
                   = Some (Z.to_int z)) as Hparse.
  { intros z. apply NilZero.isi; destruct z; simpl; try discriminate;
      intros [= Hnil]; exact (DecimalPos.Unsigned.to_uint_nonnil _ Hnil). }
  apply DecimalZ.to_int_inj.
  pose proof (Hparse a) as Ha. rewrite H, Hparse in Ha. congruence.
Qed.

(** X14. [fetchStoryDetails] asks for different identifiers at different
    addresses: the address formatted from an identifier determines the
    identifier. *)
Theorem itemURL_inj (a b : Z) : itemURL a = itemURL b → a = b.
Proof.
  unfold itemURL. intros H.
  apply String.app_inj in H. apply string_app_inj_r in H.
  apply itoa_inj, H.
Qed.

(** ** The further theorems at concrete inputs *)

Lemma seen_stories_not_requested_witness :
  Forall (λ id, seenLookup {[ 101 := true ]} id = true) [101] ∧
  (pollOnce Demo.host
     {| entries := ["old"]; seenStoryIDs := {[ 101 := true ]};
        feedViewText := "" |}
     {| Demo.replies := [Go.Got "[101]"]; Demo.runs := [] |}).1
  = Go.Ok {| entries := ["old"]; seenStoryIDs := {[ 101 := true ]};
             feedViewText := "[white]old[-]" |}.
Proof.
  assert (Forall (λ id, seenLookup {[ 101 := true ]} id = true) [101])
    as Hseen by (repeat constructor).
  split; [exact Hseen|].
  destruct (seen_stories_not_requested Demo.host
              {| entries := ["old"]; seenStoryIDs := {[ 101 := true ]};
                 feedViewText := "" |}
              [101] "[101]" "[101]"
              {| Demo.replies := [Go.Got "[101]"]; Demo.runs := [] |}
              {| Demo.replies := []; Demo.runs := [] |}
              {| Demo.replies := []; Demo.runs := [] |}
              eq_refl eq_refl eq_refl Hseen eq_refl) as (_ & Hpoll).
  rewrite Hpoll. reflexivity.
Defined.

Lemma first_new_story_ends_the_loop_witness :
  passesOver Demo.host ∅ [101]
    {| Demo.replies := [Go.Err "net/http: request canceled";
                        Go.Got "{title:A,url:u1}"];
       Demo.runs := [] |}
    {| Demo.replies := [Go.Got "{title:A,url:u1}"]; Demo.runs := [] |} ∧
  fetchLoop Demo.host [101; 102; 103] [] ∅
    {| Demo.replies := [Go.Err "net/http: request canceled";
                        Go.Got "{title:A,url:u1}"];
       Demo.runs := [] |}
  = (([Demo.storyA], {[ 102 := true ]}),
     {| Demo.replies := []; Demo.runs := [] |}).
Proof.
  assert (passesOver Demo.host ∅ [101]
            {| Demo.replies := [Go.Err "net/http: request canceled";
                                Go.Got "{title:A,url:u1}"];
               Demo.runs := [] |}
            {| Demo.replies := [Go.Got "{title:A,url:u1}"];
               Demo.runs := [] |}) as Hpass.
  { eapply passes_failed; [reflexivity | reflexivity | apply passes_none]. }
  split; [exact Hpass|].
  destruct (first_new_story_ends_the_loop Demo.host [101] ∅ _ _ Hpass)
    as (_ & Hfirst).
  apply (Hfirst 102 [103] Demo.storyA
           {| Demo.replies := []; Demo.runs := [] |} eq_refl eq_refl).
Defined.

Lemma poll_inserts_insight_witness :
  Go.Split ("High" +:+ String Go.LF "Looks urgent") Go.LF
  = ["High"; "Looks urgent"] ∧
  (pollOnce Demo.host State_init Demo.worldUrgent).1
  = Go.Ok {| entries :=
               [ "[yellow]Priority: High[-]" +:+ String Go.LF
                 "[green]A[-]" +:+ String Go.LF
                 "u1" +:+ String Go.LF "Looks urgent" ];
             seenStoryIDs := {[ 101 := true ]};
             feedViewText :=
               "[white][yellow]Priority: High[-]" +:+ String Go.LF
               "[green]A[-]" +:+ String Go.LF
               "u1" +:+ String Go.LF "Looks urgent[-]" |}.
Proof.
  split; [reflexivity|].
  assert (fetchTopStories Demo.host (seenStoryIDs State_init) Demo.worldUrgent
          = ((([Demo.storyA], None), {[ 101 := true ]}),
             {| Demo.replies := []; Demo.runs := Demo.runs Demo.worldUrgent |}))
    as Hfetch by (vm_compute; reflexivity).
  pose proof (poll_inserts_insight Demo.host State_init Demo.storyA _
                ("High" +:+ String Go.LF "Looks urgent") "High"
                ["Looks urgent"] _ _
                {| Demo.replies := []; Demo.runs := [] |}
                Hfetch eq_refl eq_refl ltac:(discriminate)) as H.
  cbv zeta in H. destruct H as (_ & Hpoll).
  rewrite Hpoll. vm_compute. reflexivity.
Defined.

Lemma analyzeWithOllama_never_panics_witness :
  analyzeWithOllama Demo.host Demo.storyA Demo.worldNoModel
  = (Go.Ok (HighValueInsight_zero,
            Some "failed to execute Ollama command: exit status 1"),
     {| Demo.replies := []; Demo.runs := [] |}).
Proof.
  pose proof (analyzeWithOllama_never_panics Demo.host Demo.storyA
                Demo.worldNoModel) as H.
  cbv zeta in H. destruct H as (insight & err & Hrun & _ & _ & Hfail).
  destruct (Hfail "exit status 1" eq_refl) as (-> & ->). exact Hrun.
Defined.

Lemma insight_entry_four_lines_witness :
  analyzeWithOllama Demo.host Demo.storyA Demo.worldUrgent
  = (Go.Ok ({| Title := "A"; URL := "u1"; Summary := "Looks urgent";
               Priority := "High" |}, None),
     {| Demo.replies := Demo.replies Demo.worldUrgent; Demo.runs := [] |}) ∧
  Go.Split (formatInsight {| Title := "A"; URL := "u1";
                             Summary := "Looks urgent"; Priority := "High" |})
    Go.LF
  = ["[yellow]Priority: High[-]"; "[green]A[-]"; "u1"; "Looks urgent"].
Proof.
  assert (analyzeWithOllama Demo.host Demo.storyA Demo.worldUrgent
          = (Go.Ok ({| Title := "A"; URL := "u1"; Summary := "Looks urgent";
                       Priority := "High" |}, None),
             {| Demo.replies := Demo.replies Demo.worldUrgent;
                Demo.runs := [] |})) as Hrun by reflexivity.
  split; [exact Hrun|].
  destruct (insight_entry_four_lines Demo.host _ _ _ _ Hrun) as (_ & _ & H).
  apply (H eq_refl eq_refl).
Defined.

Lemma fade_complete_from_four_witness :
  4 ≤ Go.len ["a"; "b"; "c"; "d"; "e"] ∧
  fadeIndex 4 5 = Go.Ok 3 ∧
  ∃ i : Z, 0 ≤ i ∧ i < 5 ∧ fadeIndex i 5 = Go.Ok 2.
Proof.
  assert (4 ≤ Go.len ["a"; "b"; "c"; "d"; "e"]) as Hn
    by (vm_compute; discriminate).
  split; [exact Hn|].
  pose proof (fade_complete_from_four ["a"; "b"; "c"; "d"; "e"] Hn eq_refl)
    as H.
  cbv zeta in H. destruct H as (Hlast & _ & Hall & _).
  split; [exact Hlast|]. apply (Hall 2); lia.
Defined.

Lemma earlier_appendMessage_text_witness :
  Earlier.appendMessage textCell "" "first" = Go.Ok (String Go.LF "first") ∧
  lineCount (String Go.LF "first") = 2.
Proof.
  pose proof (earlier_appendMessage_text textCell "" "first") as H.
  cbv zeta in H. destruct H as (Happend & _ & Hcount).
  split; [exact Happend|].
  destruct (Hcount (λ t v0, eq_refl)) as (Hc & _). exact Hc.
Defined.

Lemma earlier_insight_entries_outgrow_limit_witness :
  20 ≤ lineCount (Go.Join (take 20 Demo.messages22) (String Go.LF "")) ∧
  ∃ text' : string,
    Earlier.appendMessage textCell
      (Go.Join (take 20 Demo.messages22) (String Go.LF ""))
      (formatInsight placeholderInsight) = Go.Ok text' ∧
    23 ≤ lineCount text'.
Proof.
  assert (20 ≤ lineCount (Go.Join (take 20 Demo.messages22) (String Go.LF "")))
    as Hfull by (vm_compute; discriminate).
  split; [exact Hfull|].
  destruct (earlier_insight_entries_outgrow_limit textCell
              (Go.Join (take 20 Demo.messages22) (String Go.LF ""))
              placeholderInsight (λ t v0, eq_refl) Hfull)
    as (text' & Happend & Hgrow).
  exists text'. split; [exact Happend|].
  change (GetText textCell false text') with text' in Hgrow.
  change (lineCount (GetText textCell false
                       (Go.Join (take 20 Demo.messages22) (String Go.LF ""))))
    with 20 in Hgrow.
  lia.
Defined.

Lemma bak_appendMessage_text_witness :
  Bak.appendMessage textCell
    (Go.Join (take 10 Demo.messages22) (String Go.LF ""))
    (Bak.formatStory Demo.storyA)
  = Go.Ok (Go.Join (drop 1 (take 10 Demo.messages22) ++ ["[green]A[-] - u1"])
             (String Go.LF "")).
Proof.
  pose proof (bak_appendMessage_text textCell
                (Go.Join (take 10 Demo.messages22) (String Go.LF ""))
                (Bak.formatStory Demo.storyA)) as H.
  cbv zeta in H. destruct H as (Happend & _).
  rewrite Happend. reflexivity.
Defined.

Lemma earlier_fetchTopStories_first_ten_witness :
  Earlier.fetchTopStories Demo.host 10 Demo.worldUrgent
  = Some (Go.Ok ([Demo.storyA], None),
          {| Demo.replies := []; Demo.runs := Demo.runs Demo.worldUrgent |}).
Proof.
  pose proof (earlier_fetchTopStories_first_ten Demo.host [101; 102]
                "[101,102]" "[101,102]" Demo.worldUrgent
                {| Demo.replies := [Go.Got "{title:A,url:u1}"];
                   Demo.runs := Demo.runs Demo.worldUrgent |}
                {| Demo.replies := [Go.Got "{title:A,url:u1}"];
                   Demo.runs := Demo.runs Demo.worldUrgent |}
                10 eq_refl eq_refl eq_refl ltac:(lia)) as H.
  cbv zeta in H. destruct H as (Hfetch & _).
  rewrite Hfetch. reflexivity.
Defined.

Lemma itemURL_inj_witness :
  itemURL 101 = "https://hacker-news.firebaseio.com/v0/item/101.json" ∧
  101 = 101.
Proof.
  split; [reflexivity|]. apply (itemURL_inj 101 101 eq_refl).
Defined.
